(** * goplin: a shallow embedding of the Joplin Data API client (goplin.go)

    The Go client talks HTTP to the local Joplin application.  We model
    - the [Client] struct (port and API token; the [req] handle only holds the
      user agent and the 5 second timeout and is left out),
    - every HTTP request the code issues, as a [Request] record,
    - the server as a function from the requests already issued and the
      current request to an [Outcome] (a transport error or a response),
    - the Go methods as computations in a small state monad [M] whose state
      is the current receiver [Client] and the trace of issued requests and
      sleeps.  Unbounded [for] loops take a fuel argument; running out of
      fuel yields [None] and means "the Go loop is still running". *)

From Stdlib Require Import ZArith String Ascii Decimal.
From stdpp Require Import base gmap strings list.

Local Open Scope Z_scope.

(** ** Helpers of the Go standard library *)

Fixpoint uint_to_string (d : Decimal.uint) : string :=
  match d with
  | Nil => EmptyString
  | D0 d => String "0" (uint_to_string d)
  | D1 d => String "1" (uint_to_string d)
  | D2 d => String "2" (uint_to_string d)
  | D3 d => String "3" (uint_to_string d)
  | D4 d => String "4" (uint_to_string d)
  | D5 d => String "5" (uint_to_string d)
  | D6 d => String "6" (uint_to_string d)
  | D7 d => String "7" (uint_to_string d)
  | D8 d => String "8" (uint_to_string d)
  | D9 d => String "9" (uint_to_string d)
  end.

(** [strconv.Itoa]: decimal representation of an int. *)
Definition Itoa (i : Z) : string :=
  match Z.to_int i with
  | Decimal.Pos d => uint_to_string d
  | Decimal.Neg d => String "-" (uint_to_string d)
  end.

(** Go strings are byte sequences; a Rocq [string] is a list of bytes too. *)
Definition bytes_of (s : string) : list Z :=
  map (fun c => Z.of_N (N_of_ascii c)) (list_ascii_of_string s).

Definition string_of_bytes (bs : list Z) : string :=
  string_of_list_ascii (map (fun z => ascii_of_N (Z.to_N z)) bs).

(** [utf8.RuneError], [utf8.RuneSelf], [utf8.MaxRune], [unicode.MaxASCII] *)
Definition RuneError : Z := 65533.
Definition RuneSelf : Z := 128.
Definition MaxRune : Z := 1114111.
Definition MaxASCII : Z := 127.

(** [utf8.DecodeRuneInString]: the first rune of [p] and its width; an
    invalid or truncated encoding (bad first byte, continuation byte out of
    its accepted range, too few bytes) gives [(RuneError, 1)]. The [first]
    and [acceptRanges] tables are written out as a case split on [p0]. *)
Definition DecodeRune (p : list Z) : Z * nat :=
  match p with
  | [] => (RuneError, 0%nat)
  | p0 :: rest =>
    if p0 <? RuneSelf then (p0, 1%nat) else
    let x : option (nat * Z * Z) :=
      if (194 <=? p0) && (p0 <=? 223) then Some (2%nat, 128, 191)
      else if p0 =? 224 then Some (3%nat, 160, 191)
      else if (225 <=? p0) && (p0 <=? 236) then Some (3%nat, 128, 191)
      else if p0 =? 237 then Some (3%nat, 128, 159)
      else if (238 <=? p0) && (p0 <=? 239) then Some (3%nat, 128, 191)
      else if p0 =? 240 then Some (4%nat, 144, 191)
      else if (241 <=? p0) && (p0 <=? 243) then Some (4%nat, 128, 191)
      else if p0 =? 244 then Some (4%nat, 128, 143)
      else None in
    match x with
    | None => (RuneError, 1%nat)
    | Some (sz, lo, hi) =>
      if (length p <? sz)%nat then (RuneError, 1%nat) else
      match rest with
      | [] => (RuneError, 1%nat)
      | b1 :: rest1 =>
        if (b1 <? lo) || (hi <? b1) then (RuneError, 1%nat)
        else if (sz <=? 2)%nat then
          (Z.lor (Z.shiftl (Z.land p0 31) 6) (Z.land b1 63), 2%nat)
        else
          match rest1 with
          | [] => (RuneError, 1%nat)
          | b2 :: rest2 =>
            if (b2 <? 128) || (191 <? b2) then (RuneError, 1%nat)
            else if (sz <=? 3)%nat then
              (Z.lor (Z.lor (Z.shiftl (Z.land p0 15) 12) (Z.shiftl (Z.land b1 63) 6))
                     (Z.land b2 63), 3%nat)
            else
              match rest2 with
              | [] => (RuneError, 1%nat)
              | b3 :: _ =>
                if (b3 <? 128) || (191 <? b3) then (RuneError, 1%nat)
                else
                  (Z.lor (Z.lor (Z.lor (Z.shiftl (Z.land p0 7) 18)
                                       (Z.shiftl (Z.land b1 63) 12))
                                (Z.shiftl (Z.land b2 63) 6))
                         (Z.land b3 63), 4%nat)
              end
          end
      end
    end
  end.

(** [utf8.RuneLen] *)
Definition RuneLen (r : Z) : Z :=
  if r <? 0 then -1
  else if r <=? 127 then 1
  else if r <=? 2047 then 2
  else if (55296 <=? r) && (r <=? 57343) then -1
  else if r <=? 65535 then 3
  else if r <=? MaxRune then 4
  else -1.

(** [utf8.AppendRune] (what [Builder.WriteRune] writes): a negative rune,
    a surrogate half or a rune above [MaxRune] is written as [RuneError]. *)
Definition EncodeRune (r : Z) : list Z :=
  if (0 <=? r) && (r <=? 127) then [r]
  else if (0 <=? r) && (r <=? 2047) then
    [Z.lor 192 (Z.shiftr r 6); Z.lor 128 (Z.land r 63)]
  else
    let r := if (r <? 0) || (MaxRune <? r) || ((55296 <=? r) && (r <=? 57343))
             then RuneError else r in
    if r <=? 65535 then
      [Z.lor 224 (Z.shiftr r 12); Z.lor 128 (Z.land (Z.shiftr r 6) 63);
       Z.lor 128 (Z.land r 63)]
    else
      [Z.lor 240 (Z.shiftr r 18); Z.lor 128 (Z.land (Z.shiftr r 12) 63);
       Z.lor 128 (Z.land (Z.shiftr r 6) 63); Z.lor 128 (Z.land r 63)].

(** The second loop of [strings.Map], [for _, c := range s] over what is
    left of [s] once a rune changed ([n] bounds the number of runes). *)
Fixpoint Map_rest (mapping : Z -> Z) (n : nat) (s : list Z) : list Z :=
  match n, s with
  | O, _ | _, [] => []
  | S n', _ =>
    let '(c, width) := DecodeRune s in
    let r := mapping c in
    (if 0 <=? r then EncodeRune r else []) ++ Map_rest mapping n' (drop width s)
  end.

(** The first loop of [strings.Map], [for i, c := range s], which looks for
    the first rune that changes; [None] when none does ([b.Cap() == 0]). *)
Fixpoint Map_scan (mapping : Z -> Z) (n : nat) (i : nat) (s : list Z)
    : option (list Z) :=
  match n with
  | O => None
  | S n' =>
    match drop i s with
    | [] => None
    | rest =>
      let '(c, w) := DecodeRune rest in
      let r := mapping c in
      if (r =? c) && negb (c =? RuneError) then Map_scan mapping n' (i + w) s
      else
        let '(c, width) :=
          if c =? RuneError then DecodeRune rest else (c, Z.to_nat (RuneLen c)) in
        if (c =? RuneError) && negb (width =? 1)%nat && (r =? c) then
          Map_scan mapping n' (i + w) s
        else
          Some (take i s ++ (if 0 <=? r then EncodeRune r else []) ++
                Map_rest mapping (length s) (drop (i + width) s))
    end
  end.

(** [strings.Map(mapping, s)] *)
Definition strings_Map (mapping : Z -> Z) (s : list Z) : list Z :=
  match Map_scan mapping (length s) 0 s with
  | None => s
  | Some b => b
  end.

(** One entry of [unicode.CaseRanges], upper-case column only: the runes
    [Lo..Hi] move by [Delta d], or, in an [UpperLower] range, alternate
    upper case (even offset from [Lo]) and lower case (odd offset). *)
Inductive CaseDelta := Delta (d : Z) | UpperLower.

Record CaseRange := CR { cr_Lo : Z; cr_Hi : Z; cr_Delta : CaseDelta }.

(** The upper-case mappings of [unicode.CaseRanges], from the simple
    upper-case mappings of the Unicode Character Database 14.0.0; ranges
    whose upper-case delta is 0 map a rune to itself and are left out. *)
Definition CaseRanges_Upper : list CaseRange := [
  CR 0x00B5 0x00B5 (Delta (743));
  CR 0x00E0 0x00F6 (Delta (-32));
  CR 0x00F8 0x00FE (Delta (-32));
  CR 0x00FF 0x00FF (Delta (121));
  CR 0x0100 0x012F UpperLower;
  CR 0x0131 0x0131 (Delta (-232));
  CR 0x0132 0x0137 UpperLower;
  CR 0x0139 0x0148 UpperLower;
  CR 0x014A 0x0177 UpperLower;
  CR 0x0179 0x017E UpperLower;
  CR 0x017F 0x017F (Delta (-300));
  CR 0x0180 0x0180 (Delta (195));
  CR 0x0182 0x0185 UpperLower;
  CR 0x0188 0x0188 (Delta (-1));
  CR 0x018C 0x018C (Delta (-1));
  CR 0x0192 0x0192 (Delta (-1));
  CR 0x0195 0x0195 (Delta (97));
  CR 0x0199 0x0199 (Delta (-1));
  CR 0x019A 0x019A (Delta (163));
  CR 0x019E 0x019E (Delta (130));
  CR 0x01A0 0x01A5 UpperLower;
  CR 0x01A8 0x01A8 (Delta (-1));
  CR 0x01AD 0x01AD (Delta (-1));
  CR 0x01B0 0x01B0 (Delta (-1));
  CR 0x01B3 0x01B6 UpperLower;
  CR 0x01B9 0x01B9 (Delta (-1));
  CR 0x01BD 0x01BD (Delta (-1));
  CR 0x01BF 0x01BF (Delta (56));
  CR 0x01C5 0x01C5 (Delta (-1));
  CR 0x01C6 0x01C6 (Delta (-2));
  CR 0x01C8 0x01C8 (Delta (-1));
  CR 0x01C9 0x01C9 (Delta (-2));
  CR 0x01CB 0x01CB (Delta (-1));
  CR 0x01CC 0x01CC (Delta (-2));
  CR 0x01CD 0x01DC UpperLower;
  CR 0x01DD 0x01DD (Delta (-79));
  CR 0x01DE 0x01EF UpperLower;
  CR 0x01F2 0x01F2 (Delta (-1));
  CR 0x01F3 0x01F3 (Delta (-2));
  CR 0x01F5 0x01F5 (Delta (-1));
  CR 0x01F8 0x021F UpperLower;
  CR 0x0222 0x0233 UpperLower;
  CR 0x023C 0x023C (Delta (-1));
  CR 0x023F 0x0240 (Delta (10815));
  CR 0x0242 0x0242 (Delta (-1));
  CR 0x0246 0x024F UpperLower;
  CR 0x0250 0x0250 (Delta (10783));
  CR 0x0251 0x0251 (Delta (10780));
  CR 0x0252 0x0252 (Delta (10782));
  CR 0x0253 0x0253 (Delta (-210));
  CR 0x0254 0x0254 (Delta (-206));
  CR 0x0256 0x0257 (Delta (-205));
  CR 0x0259 0x0259 (Delta (-202));
  CR 0x025B 0x025B (Delta (-203));
  CR 0x025C 0x025C (Delta (42319));
  CR 0x0260 0x0260 (Delta (-205));
  CR 0x0261 0x0261 (Delta (42315));
  CR 0x0263 0x0263 (Delta (-207));
  CR 0x0265 0x0265 (Delta (42280));
  CR 0x0266 0x0266 (Delta (42308));
  CR 0x0268 0x0268 (Delta (-209));
  CR 0x0269 0x0269 (Delta (-211));
  CR 0x026A 0x026A (Delta (42308));
  CR 0x026B 0x026B (Delta (10743));
  CR 0x026C 0x026C (Delta (42305));
  CR 0x026F 0x026F (Delta (-211));
  CR 0x0271 0x0271 (Delta (10749));
  CR 0x0272 0x0272 (Delta (-213));
  CR 0x0275 0x0275 (Delta (-214));
  CR 0x027D 0x027D (Delta (10727));
  CR 0x0280 0x0280 (Delta (-218));
  CR 0x0282 0x0282 (Delta (42307));
  CR 0x0283 0x0283 (Delta (-218));
  CR 0x0287 0x0287 (Delta (42282));
  CR 0x0288 0x0288 (Delta (-218));
  CR 0x0289 0x0289 (Delta (-69));
  CR 0x028A 0x028B (Delta (-217));
  CR 0x028C 0x028C (Delta (-71));
  CR 0x0292 0x0292 (Delta (-219));
  CR 0x029D 0x029D (Delta (42261));
  CR 0x029E 0x029E (Delta (42258));
  CR 0x0345 0x0345 (Delta (84));
  CR 0x0370 0x0373 UpperLower;
  CR 0x0377 0x0377 (Delta (-1));
  CR 0x037B 0x037D (Delta (130));
  CR 0x03AC 0x03AC (Delta (-38));
  CR 0x03AD 0x03AF (Delta (-37));
  CR 0x03B1 0x03C1 (Delta (-32));
  CR 0x03C2 0x03C2 (Delta (-31));
  CR 0x03C3 0x03CB (Delta (-32));
  CR 0x03CC 0x03CC (Delta (-64));
  CR 0x03CD 0x03CE (Delta (-63));
  CR 0x03D0 0x03D0 (Delta (-62));
  CR 0x03D1 0x03D1 (Delta (-57));
  CR 0x03D5 0x03D5 (Delta (-47));
  CR 0x03D6 0x03D6 (Delta (-54));
  CR 0x03D7 0x03D7 (Delta (-8));
  CR 0x03D8 0x03EF UpperLower;
  CR 0x03F0 0x03F0 (Delta (-86));
  CR 0x03F1 0x03F1 (Delta (-80));
  CR 0x03F2 0x03F2 (Delta (7));
  CR 0x03F3 0x03F3 (Delta (-116));
  CR 0x03F5 0x03F5 (Delta (-96));
  CR 0x03F8 0x03F8 (Delta (-1));
  CR 0x03FB 0x03FB (Delta (-1));
  CR 0x0430 0x044F (Delta (-32));
  CR 0x0450 0x045F (Delta (-80));
  CR 0x0460 0x0481 UpperLower;
  CR 0x048A 0x04BF UpperLower;
  CR 0x04C1 0x04CE UpperLower;
  CR 0x04CF 0x04CF (Delta (-15));
  CR 0x04D0 0x052F UpperLower;
  CR 0x0561 0x0586 (Delta (-48));
  CR 0x10D0 0x10FA (Delta (3008));
  CR 0x10FD 0x10FF (Delta (3008));
  CR 0x13F8 0x13FD (Delta (-8));
  CR 0x1C80 0x1C80 (Delta (-6254));
  CR 0x1C81 0x1C81 (Delta (-6253));
  CR 0x1C82 0x1C82 (Delta (-6244));
  CR 0x1C83 0x1C84 (Delta (-6242));
  CR 0x1C85 0x1C85 (Delta (-6243));
  CR 0x1C86 0x1C86 (Delta (-6236));
  CR 0x1C87 0x1C87 (Delta (-6181));
  CR 0x1C88 0x1C88 (Delta (35266));
  CR 0x1D79 0x1D79 (Delta (35332));
  CR 0x1D7D 0x1D7D (Delta (3814));
  CR 0x1D8E 0x1D8E (Delta (35384));
  CR 0x1E00 0x1E95 UpperLower;
  CR 0x1E9B 0x1E9B (Delta (-59));
  CR 0x1EA0 0x1EFF UpperLower;
  CR 0x1F00 0x1F07 (Delta (8));
  CR 0x1F10 0x1F15 (Delta (8));
  CR 0x1F20 0x1F27 (Delta (8));
  CR 0x1F30 0x1F37 (Delta (8));
  CR 0x1F40 0x1F45 (Delta (8));
  CR 0x1F51 0x1F51 (Delta (8));
  CR 0x1F53 0x1F53 (Delta (8));
  CR 0x1F55 0x1F55 (Delta (8));
  CR 0x1F57 0x1F57 (Delta (8));
  CR 0x1F60 0x1F67 (Delta (8));
  CR 0x1F70 0x1F71 (Delta (74));
  CR 0x1F72 0x1F75 (Delta (86));
  CR 0x1F76 0x1F77 (Delta (100));
  CR 0x1F78 0x1F79 (Delta (128));
  CR 0x1F7A 0x1F7B (Delta (112));
  CR 0x1F7C 0x1F7D (Delta (126));
  CR 0x1F80 0x1F87 (Delta (8));
  CR 0x1F90 0x1F97 (Delta (8));
  CR 0x1FA0 0x1FA7 (Delta (8));
  CR 0x1FB0 0x1FB1 (Delta (8));
  CR 0x1FB3 0x1FB3 (Delta (9));
  CR 0x1FBE 0x1FBE (Delta (-7205));
  CR 0x1FC3 0x1FC3 (Delta (9));
  CR 0x1FD0 0x1FD1 (Delta (8));
  CR 0x1FE0 0x1FE1 (Delta (8));
  CR 0x1FE5 0x1FE5 (Delta (7));
  CR 0x1FF3 0x1FF3 (Delta (9));
  CR 0x214E 0x214E (Delta (-28));
  CR 0x2170 0x217F (Delta (-16));
  CR 0x2184 0x2184 (Delta (-1));
  CR 0x24D0 0x24E9 (Delta (-26));
  CR 0x2C30 0x2C5F (Delta (-48));
  CR 0x2C61 0x2C61 (Delta (-1));
  CR 0x2C65 0x2C65 (Delta (-10795));
  CR 0x2C66 0x2C66 (Delta (-10792));
  CR 0x2C67 0x2C6C UpperLower;
  CR 0x2C73 0x2C73 (Delta (-1));
  CR 0x2C76 0x2C76 (Delta (-1));
  CR 0x2C80 0x2CE3 UpperLower;
  CR 0x2CEB 0x2CEE UpperLower;
  CR 0x2CF3 0x2CF3 (Delta (-1));
  CR 0x2D00 0x2D25 (Delta (-7264));
  CR 0x2D27 0x2D27 (Delta (-7264));
  CR 0x2D2D 0x2D2D (Delta (-7264));
  CR 0xA640 0xA66D UpperLower;
  CR 0xA680 0xA69B UpperLower;
  CR 0xA722 0xA72F UpperLower;
  CR 0xA732 0xA76F UpperLower;
  CR 0xA779 0xA77C UpperLower;
  CR 0xA77E 0xA787 UpperLower;
  CR 0xA78C 0xA78C (Delta (-1));
  CR 0xA790 0xA793 UpperLower;
  CR 0xA794 0xA794 (Delta (48));
  CR 0xA796 0xA7A9 UpperLower;
  CR 0xA7B4 0xA7C3 UpperLower;
  CR 0xA7C7 0xA7CA UpperLower;
  CR 0xA7D1 0xA7D1 (Delta (-1));
  CR 0xA7D6 0xA7D9 UpperLower;
  CR 0xA7F6 0xA7F6 (Delta (-1));
  CR 0xAB53 0xAB53 (Delta (-928));
  CR 0xAB70 0xABBF (Delta (-38864));
  CR 0xFF41 0xFF5A (Delta (-32));
  CR 0x10428 0x1044F (Delta (-40));
  CR 0x104D8 0x104FB (Delta (-40));
  CR 0x10597 0x105A1 (Delta (-39));
  CR 0x105A3 0x105B1 (Delta (-39));
  CR 0x105B3 0x105B9 (Delta (-39));
  CR 0x105BB 0x105BC (Delta (-39));
  CR 0x10CC0 0x10CF2 (Delta (-64));
  CR 0x118C0 0x118DF (Delta (-32));
  CR 0x16E60 0x16E7F (Delta (-32));
  CR 0x1E922 0x1E943 (Delta (-34)) ].

(** [unicode.to(UpperCase, r, CaseRanges)]: the binary search over the
    sorted, disjoint ranges finds the same range as this linear one. *)
Definition unicode_To_Upper (r : Z) : Z :=
  match List.find (fun cr => (cr_Lo cr <=? r) && (r <=? cr_Hi cr)) CaseRanges_Upper with
  | Some cr =>
    match cr_Delta cr with
    | Delta d => r + d
    | UpperLower => cr_Lo cr + Z.land (r - cr_Lo cr) (Z.lnot 1)
    end
  | None => r
  end.

(** [unicode.ToUpper] *)
Definition unicode_ToUpper (r : Z) : Z :=
  if r <=? MaxASCII then
    (if (97 <=? r) && (r <=? 122) then r - 32 else r)
  else unicode_To_Upper r.

(** [strings.ToUpper]: an all-ASCII string maps a..z to A..Z (returned as
    is when it has no lower-case letter); any other string goes through
    [strings.Map(unicode.ToUpper, s)]. *)
Definition strings_ToUpper (s : string) : string :=
  let bs := bytes_of s in
  if forallb (fun c => c <? RuneSelf) bs then
    if existsb (fun c => (97 <=? c) && (c <=? 122)) bs then
      string_of_bytes (map (fun c => if (97 <=? c) && (c <=? 122) then c - 32 else c) bs)
    else s
  else string_of_bytes (strings_Map unicode_ToUpper bs).


(** [len(s) != 0] *)
Definition nonempty (s : string) : bool := negb (String.length s =? 0)%nat.

(** ** Data model *)

(** [const (joplinMinPortNum = 41184; joplinMaxPortNum = 41194;
    retriesGetApiToken = 20)] *)
Definition joplinMinPortNum : Z := 41184.
Definition joplinMaxPortNum : Z := 41194.
Definition retriesGetApiToken : Z := 20.

(** [type Client struct { handle; port int; apiToken string }] *)
Record Client := mkClient { port : Z; apiToken : string }.

(** Tag, Note, Folder and Item as far as the code reads them. *)
Record Entity := mkEntity { ID : string; ParentID : string; Title : string }.

Inductive Method := GET | POST | PUT | DELETE.

(** One request built with [c.handle.R()...]: the URL
    [fmt.Sprintf("http://localhost:%d<path>", c.port)] is kept as its port
    and path template. *)
Record Request := mkRequest {
  rq_method : Method;
  rq_port : Z;
  rq_path : string;
  rq_path_params : list (string * string);
  rq_query : gmap string string;
  rq_body : list (string * string)
}.

(** A decoded JSON body: [None] for a field absent from the JSON. *)
Record Body := mkBody {
  b_items : option (list Entity);
  b_has_more : option bool;
  b_status : option string;
  b_token : option string;
  b_auth_token : option string;
  b_entity : option Entity;
  b_author : option string
}.

Definition emptyBody : Body := mkBody None None None None None None None.

(** What [req] returns: an error ([err != nil]) or a response. *)
Inductive Outcome :=
| TransportError (e : string)
| Response (StatusCode : Z) (body : Body) (dump : string).

(** [resp.IsSuccess()] and [resp.IsError()] of req/v3. *)
Definition IsSuccess (code : Z) : bool := (199 <? code) && (code <? 300).
Definition IsError (code : Z) : bool := 399 <? code.

(** The Go [error] values the code builds, one constructor per format. *)
Inductive Error :=
| ErrTransport (e : string)
| ErrErrorResponse (dump : string)         (* "got error response, raw dump:\n%s" *)
| ErrUnexpectedResponse (dump : string)    (* "got unexpected response, raw dump:\n%s" *)
| ErrCouldNotFind (what id : string)       (* "could not find <what> '%s" *)
| ErrCouldNotCreateTag                     (* "could not create tag" *)
| ErrRejected                              (* "request rejected" *)
| ErrNoAnswer.                             (* "could not get an answer from user" *)

Inductive Event :=
| EvRequest (r : Request)
| EvSleep (seconds : Z).

Fixpoint requests_of (tr : list Event) : list Request :=
  match tr with
  | [] => []
  | EvRequest r :: tr' => r :: requests_of tr'
  | EvSleep _ :: tr' => requests_of tr'
  end.

(** ** The monad *)

Definition Server := list Request -> Request -> Outcome.

Record World := mkWorld { w_client : Client; w_trace : list Event }.

Definition M (A : Type) := Server -> World -> option A * World.

Global Instance M_ret : MRet M := fun A a _ w => (Some a, w).
Global Instance M_bind : MBind M := fun A B k m srv w =>
  match m srv w with
  | (Some a, w') => k a srv w'
  | (None, w') => (None, w')
  end.

(** Fuel exhausted: the Go loop has not returned yet. *)
Definition diverge {A} : M A := fun _ w => (None, w).

Definition get_client : M Client := fun _ w => (Some (w_client w), w).

Definition put_client (c : Client) : M unit :=
  fun _ w => (Some tt, mkWorld c (w_trace w)).

Definition send (r : Request) : M Outcome := fun srv w =>
  (Some (srv (requests_of (w_trace w)) r),
   mkWorld (w_client w) (w_trace w ++ [EvRequest r])).

(** [time.Sleep(time.Second)] *)
Definition sleep (seconds : Z) : M unit := fun _ w =>
  (Some tt, mkWorld (w_client w) (w_trace w ++ [EvSleep seconds])).

(** ** The paginated fetcher

    The list methods ([GetNotesByTag], [GetAllNotes], [GetNotesInFolder],
    [GetAllFolders], [GetAllTags], [Search], [GetNoteTags]) share one loop,
    textually repeated in the source; they differ in the request they
    build and in the message of the error-status branch. *)

(** [notesResult], [tagsResult], [foldersResult], [searchResult]. *)
Record PageResult := mkPageResult { Items : list Entity; HasMore : bool }.

(** [var result notesResult]: the zero value. *)
Definition zeroPage : PageResult := mkPageResult [] false.

(** [SetResult(&result).SetError(&result)]: the body is decoded into the
    same variable on a success or an error status; JSON decoding keeps the
    fields absent from the body. *)
Definition decode_page (code : Z) (r : PageResult) (b : Body) : PageResult :=
  if IsSuccess code || IsError code then
    mkPageResult (match b_items b with Some l => l | None => Items r end)
                 (match b_has_more b with Some h => h | None => HasMore r end)
  else r.

Fixpoint fetch_loop (fuel : nat) (mk : gmap string string -> Request)
    (on_error : Z -> string -> Error) (queryParams : gmap string string)
    (page : Z) (result : PageResult) (acc : list Entity)
    : M (list Entity * option Error) :=
  match fuel with
  | O => diverge
  | S fuel' =>
    resp ← send (mk queryParams);
    match resp with
    | TransportError e => mret (acc, Some (ErrTransport e))
    | Response code body dump =>
      let result := decode_page code result body in
      if IsError code then mret (acc, Some (on_error code dump))
      else if IsSuccess code then
        let acc := acc ++ Items result in
        if HasMore result then
          let page := page + 1 in
          fetch_loop fuel' mk on_error (<["page" := Itoa page]> queryParams)
                     page result acc
        else mret (acc, None)
      else mret (acc, Some (ErrUnexpectedResponse dump))
    end
  end.

(** The error-status branch of most methods. *)
Definition generic_error (code : Z) (dump : string) : Error := ErrErrorResponse dump.

(** The error-status branch with a 404 case. *)
Definition error_404 (what id : string) (code : Z) (dump : string) : Error :=
  if code =? 404 then ErrCouldNotFind what id else ErrErrorResponse dump.

(** The query map of the list methods with ordering arguments. *)
Definition order_query (token fields orderBy orderDir : string)
    : gmap string string :=
  let queryParams : gmap string string :=
    <["page" := Itoa 1]> (<["fields" := fields]> (<["token" := token]> ∅)) in
  let queryParams :=
    if nonempty orderBy then <["order_by" := orderBy]> queryParams
    else queryParams in
  if nonempty orderDir then <["order_dir" := strings_ToUpper orderDir]> queryParams
  else queryParams.

Definition listFields : string := "id,parent_id,title".

Definition GetNotesByTag (fuel : nat) (id orderBy orderDir : string)
    : M (list Entity * option Error) :=
  c ← get_client;
  let queryParams := order_query (apiToken c) listFields orderBy orderDir in
  fetch_loop fuel (fun qp => mkRequest GET (port c) "/tags/{id}/notes" [("id", id)] qp [])
    (error_404 "note with IDs" id) queryParams 1 zeroPage [].

Definition GetAllNotes (fuel : nat) (fields orderBy orderDir : string)
    : M (list Entity * option Error) :=
  c ← get_client;
  let queryParams := order_query (apiToken c) fields orderBy orderDir in
  fetch_loop fuel (fun qp => mkRequest GET (port c) "/notes" [] qp [])
    generic_error queryParams 1 zeroPage [].

Definition GetNotesInFolder (fuel : nat) (id fields orderBy orderDir : string)
    : M (list Entity * option Error) :=
  c ← get_client;
  let queryParams := order_query (apiToken c) fields orderBy orderDir in
  fetch_loop fuel (fun qp => mkRequest GET (port c) "/folders/{id}/notes" [("id", id)] qp [])
    generic_error queryParams 1 zeroPage [].

Definition GetAllFolders (fuel : nat) (fields orderBy orderDir : string)
    : M (list Entity * option Error) :=
  c ← get_client;
  let queryParams := order_query (apiToken c) fields orderBy orderDir in
  fetch_loop fuel (fun qp => mkRequest GET (port c) "/folders" [] qp [])
    generic_error queryParams 1 zeroPage [].

Definition GetAllTags (fuel : nat) (orderBy orderDir : string)
    : M (list Entity * option Error) :=
  c ← get_client;
  let queryParams := order_query (apiToken c) listFields orderBy orderDir in
  fetch_loop fuel (fun qp => mkRequest GET (port c) "/tags/" [] qp [])
    generic_error queryParams 1 zeroPage [].

Definition search_query (token query queryType fields : string)
    : gmap string string :=
  let queryParams : gmap string string :=
    <["query" := query]> (<["page" := Itoa 1]> (<["token" := token]> ∅)) in
  let queryParams :=
    if nonempty queryType then <["type" := queryType]> queryParams
    else queryParams in
  if nonempty fields then <["fields" := fields]> queryParams else queryParams.

Definition Search (fuel : nat) (query queryType fields : string)
    : M (list Entity * option Error) :=
  c ← get_client;
  let queryParams := search_query (apiToken c) query queryType fields in
  fetch_loop fuel (fun qp => mkRequest GET (port c) "/search" [] qp [])
    generic_error queryParams 1 zeroPage [].

Definition GetNoteTags (fuel : nat) (id orderBy orderDir : string)
    : M (list Entity * option Error) :=
  c ← get_client;
  let queryParams := order_query (apiToken c) listFields orderBy orderDir in
  fetch_loop fuel (fun qp => mkRequest GET (port c) "/notes/{id}/tags" [("id", id)] qp [])
    (error_404 "note with IDs" id) queryParams 1 zeroPage [].

Inductive ListCall :=
| CGetNotesByTag (id orderBy orderDir : string)
| CGetAllNotes (fields orderBy orderDir : string)
| CGetNotesInFolder (id fields orderBy orderDir : string)
| CGetAllFolders (fields orderBy orderDir : string)
| CGetAllTags (orderBy orderDir : string)
| CSearch (query queryType fields : string)
| CGetNoteTags (id orderBy orderDir : string).

Definition run_list (fuel : nat) (call : ListCall) : M (list Entity * option Error) :=
  match call with
  | CGetNotesByTag id ob od => GetNotesByTag fuel id ob od
  | CGetAllNotes f ob od => GetAllNotes fuel f ob od
  | CGetNotesInFolder id f ob od => GetNotesInFolder fuel id f ob od
  | CGetAllFolders f ob od => GetAllFolders fuel f ob od
  | CGetAllTags ob od => GetAllTags fuel ob od
  | CSearch q t f => Search fuel q t f
  | CGetNoteTags id ob od => GetNoteTags fuel id ob od
  end.

(** The parts in which the list methods differ. *)
Definition list_request (call : ListCall) (c : Client) (qp : gmap string string)
    : Request :=
  match call with
  | CGetNotesByTag id _ _ => mkRequest GET (port c) "/tags/{id}/notes" [("id", id)] qp []
  | CGetAllNotes _ _ _ => mkRequest GET (port c) "/notes" [] qp []
  | CGetNotesInFolder id _ _ _ =>
      mkRequest GET (port c) "/folders/{id}/notes" [("id", id)] qp []
  | CGetAllFolders _ _ _ => mkRequest GET (port c) "/folders" [] qp []
  | CGetAllTags _ _ => mkRequest GET (port c) "/tags/" [] qp []
  | CSearch _ _ _ => mkRequest GET (port c) "/search" [] qp []
  | CGetNoteTags id _ _ => mkRequest GET (port c) "/notes/{id}/tags" [("id", id)] qp []
  end.

Definition list_on_error (call : ListCall) : Z -> string -> Error :=
  match call with
  | CGetNotesByTag id _ _ | CGetNoteTags id _ _ => error_404 "note with IDs" id
  | _ => generic_error
  end.

Definition list_query (call : ListCall) (c : Client) : gmap string string :=
  match call with
  | CGetNotesByTag _ ob od | CGetAllTags ob od | CGetNoteTags _ ob od =>
      order_query (apiToken c) listFields ob od
  | CGetAllNotes f ob od | CGetNotesInFolder _ f ob od | CGetAllFolders f ob od =>
      order_query (apiToken c) f ob od
  | CSearch q t f => search_query (apiToken c) q t f
  end.

(** The ordering arguments of a list call (Search has none). *)
Definition list_ordering (call : ListCall) : option (string * string) :=
  match call with
  | CGetNotesByTag _ ob od | CGetAllTags ob od | CGetNoteTags _ ob od
  | CGetAllNotes _ ob od | CGetNotesInFolder _ _ ob od | CGetAllFolders _ ob od =>
      Some (ob, od)
  | CSearch _ _ _ => None
  end.

(** ** Single-request methods *)

Definition zeroEntity : Entity := mkEntity "" "" "".

(** [SetResult(&tag).SetError(&tag)] *)
Definition decode_entity (code : Z) (e : Entity) (b : Body) : Entity :=
  if IsSuccess code || IsError code then
    match b_entity b with Some e' => e' | None => e end
  else e.

(** The [if err != nil / if resp.IsError() / if resp.IsSuccess() / unexpected]
    chain that ends every single-request method. *)
Definition check_response (on_error : Z -> string -> Error) (resp : Outcome)
    : option Error :=
  match resp with
  | TransportError e => Some (ErrTransport e)
  | Response code _ dump =>
    if IsError code then Some (on_error code dump)
    else if IsSuccess code then None
    else Some (ErrUnexpectedResponse dump)
  end.

(** [fmt.Errorf("got error response, raw dump:\n%s", resp.Error())] where no
    error object was registered: [%s] of a nil interface. *)
Definition nil_error_value : string := "%!s(<nil>)".

Definition token_query (c : Client) : gmap string string := <["token" := apiToken c]> ∅.

Definition GetTag (id fields : string) : M (Entity * option Error) :=
  c ← get_client;
  resp ← send (mkRequest GET (port c) "/tags/{id}" [("id", id)]
                 (<["fields" := fields]> (token_query c)) []);
  let tag := match resp with Response code b _ => decode_entity code zeroEntity b
             | TransportError _ => zeroEntity end in
  mret (tag, check_response (error_404 "tag with IDs" id) resp).

Definition CreateTag (title : string) : M (option Error) :=
  c ← get_client;
  resp ← send (mkRequest POST (port c) "/tags" [] (token_query c) [("title", title)]);
  mret (check_response (fun code dump =>
          if code =? 404 then ErrCouldNotCreateTag else ErrErrorResponse dump) resp).

Definition GetNote (id fields : string) : M (Entity * option Error) :=
  c ← get_client;
  resp ← send (mkRequest GET (port c) "/notes/{id}" [("id", id)]
                 (<["fields" := fields]> (token_query c)) []);
  let note := match resp with Response code b _ => decode_entity code zeroEntity b
              | TransportError _ => zeroEntity end in
  mret (note, check_response (error_404 "note with ID" id) resp).

Definition UpdateNote (id title parent_id : string) : M (option Error) :=
  c ← get_client;
  resp ← send (mkRequest PUT (port c) "/notes/{id}" [("id", id)] (token_query c)
                 [("parent_id", parent_id); ("title", title)]);
  mret (check_response (error_404 "note with ID" id) resp).

Definition GetFolder (id fields : string) : M (Entity * option Error) :=
  c ← get_client;
  resp ← send (mkRequest GET (port c) "/folders/{id}" [("id", id)]
                 (<["fields" := fields]> (token_query c)) []);
  let folder := match resp with Response code b _ => decode_entity code zeroEntity b
                | TransportError _ => zeroEntity end in
  mret (folder, check_response (error_404 "folder with ID" id) resp).

Definition DeleteTag (id : string) : M (option Error) :=
  c ← get_client;
  resp ← send (mkRequest DELETE (port c) "/tags/{id}" [("id", id)] (token_query c) []);
  mret (check_response generic_error resp).

Definition DeleteTagFromNote (tagID noteID : string) : M (option Error) :=
  c ← get_client;
  resp ← send (mkRequest DELETE (port c) "/tags/{tagID}/notes/{noteID}"
                 [("tagID", tagID); ("noteID", noteID)] (token_query c) []);
  mret (check_response generic_error resp).

Definition GetApiToken : M string :=
  c ← get_client;
  mret (apiToken c).

(** The [for { ... }] of the following methods returns on every path of its
    first iteration. *)
Definition CreateTagsNotes (note_id tagID : string) : M (option Error) :=
  c ← get_client;
  resp ← send (mkRequest POST (port c) "/tags/{tagID}/notes" [("tagID", tagID)]
                 (token_query c) [("id", note_id)]);
  mret (check_response (fun _ _ => ErrErrorResponse nil_error_value) resp).

Definition UpdateNoteAuthor (note : Entity) (value : string) : M (option Error) :=
  c ← get_client;
  resp ← send (mkRequest PUT (port c) "/notes/{noteid}" [("noteid", ID note)]
                 (token_query c) [("author", value)]);
  mret (check_response (fun _ _ => ErrErrorResponse nil_error_value) resp).

(** [resp.Error()] is the decoded [&this_note] here, printed with [%s]. *)
Definition note_error_value : string := "&{...}".

Definition GetAuthorField (note : Entity) : M (string * option Error) :=
  c ← get_client;
  resp ← send (mkRequest GET (port c) "/notes/{noteid}" [("noteid", ID note)]
                 (<["token" := apiToken c]> (<["fields" := "id,title,author"]> ∅)) []);
  match resp with
  | TransportError e => mret ("", Some (ErrTransport e))
  | Response code b dump =>
    if IsError code then mret ("", Some (ErrErrorResponse note_error_value))
    else if IsSuccess code then
      mret (match b_author b with Some a => a | None => "" end, None)
    else mret ("", Some (ErrUnexpectedResponse dump))
  end.

Definition CreateFolder (folder_name parent_id : string) : M (option Error) :=
  c ← get_client;
  resp ← send (mkRequest POST (port c) "/folders" [] (token_query c)
                 [("title", folder_name); ("parent_id", parent_id)]);
  mret (check_response (fun _ _ => ErrErrorResponse nil_error_value) resp).

Definition DeleteFolder (folder_id : string) : M (option Error) :=
  c ← get_client;
  resp ← send (mkRequest DELETE (port c) "/folders/{folder_id}" [("folder_id", folder_id)]
                 (token_query c) []);
  mret (check_response (fun _ _ => ErrErrorResponse nil_error_value) resp).

(** ** Discovery and pairing *)

Definition getAuthToken : M (string * option Error) :=
  c ← get_client;
  resp ← send (mkRequest POST (port c) "/auth" [] ∅ []);
  match resp with
  | TransportError e => mret ("", Some (ErrTransport e))
  | Response code b dump =>
    if IsError code then mret ("", Some (ErrErrorResponse dump))
    else if IsSuccess code then
      mret (match b_auth_token b with Some t => t | None => "" end, None)
    else mret ("", Some (ErrUnexpectedResponse dump))
  end.

(** [var result struct { Status string; ApiToken string }] *)
Record PollResult := mkPollResult { Status : string; ApiToken : string }.

Definition zeroPoll : PollResult := mkPollResult "" "".

Definition decode_poll (code : Z) (r : PollResult) (b : Body) : PollResult :=
  if IsSuccess code || IsError code then
    mkPollResult (match b_status b with Some s => s | None => Status r end)
                 (match b_token b with Some t => t | None => ApiToken r end)
  else r.

Definition poll_request (c : Client) (authToken : string) : Request :=
  mkRequest GET (port c) "/auth/check" [] (<["auth_token" := authToken]> ∅) [].

(** The [for] loop of [getApiToken]; it returns the values of
    [receivedApiToken], [retErr] and [result] at its [break]. *)
Fixpoint poll_loop (fuel : nat) (authToken : string) (retries : Z)
    (result : PollResult) : M (bool * option Error * PollResult) :=
  match fuel with
  | O => diverge
  | S fuel' =>
    c ← get_client;
    resp ← send (poll_request c authToken);
    match resp with
    | TransportError e => mret (false, Some (ErrTransport e), result)
    | Response code b dump =>
      let result := decode_poll code result b in
      if IsError code then mret (false, Some (ErrErrorResponse dump), result)
      else if IsSuccess code then
        if String.eqb (Status result) "accepted" then mret (true, None, result)
        else if String.eqb (Status result) "rejected" then
          mret (false, Some ErrRejected, result)
        else if String.eqb (Status result) "waiting" then
          let retries := retries + 1 in
          if retries <? retriesGetApiToken then
            _ ← sleep 1;
            poll_loop fuel' authToken retries result
          else mret (false, Some ErrNoAnswer, result)
        else poll_loop fuel' authToken retries result
      else poll_loop fuel' authToken retries result
    end
  end.

Definition getApiToken (fuel : nat) (authToken : string) : M (string * option Error) :=
  r ← poll_loop fuel authToken 0 zeroPoll;
  let '(receivedApiToken, retErr, result) := (r : bool * option Error * PollResult) in
  if receivedApiToken then mret (ApiToken result, None) else mret ("", retErr).

(** The [for i := joplinMinPortNum; i <= joplinMaxPortNum; i++] loop of [New],
    over the [n] ports left; it returns [joplinPortFound] and [retErr]. *)
Fixpoint port_loop (n : nat) (fuel : nat) (apiToken' : string) (i : Z)
    (retErr : option Error) : M (bool * option Error) :=
  match n with
  | O => mret (false, retErr)
  | S n' =>
    resp ← send (mkRequest GET i "/ping" [] ∅ []);
    match resp with
    | TransportError e => port_loop n' fuel apiToken' (i + 1) (Some (ErrTransport e))
    | Response code _ _ =>
      (* [retErr = err] with [err == nil] here *)
      if IsError code then port_loop n' fuel apiToken' (i + 1) None
      else if IsSuccess code then
        c ← get_client;
        _ ← put_client (mkClient i (apiToken c));
        if nonempty apiToken' then mret (true, retErr)
        else
          r ← getAuthToken;
          let '(authToken, err) := (r : string * option Error) in
          match err with
          | Some e => mret (false, Some e)
          | None =>
            r ← getApiToken fuel authToken;
            let '(tok, err) := (r : string * option Error) in
            c ← get_client;
            _ ← put_client (mkClient (port c) tok);
            match err with
            | Some e => mret (false, Some e)
            | None => mret (true, retErr)
            end
          end
      else port_loop n' fuel apiToken' (i + 1) retErr
    end
  end.

Definition port_count : nat := Z.to_nat (joplinMaxPortNum - joplinMinPortNum + 1).

(** [New(apiToken)]: the receiver of the monad is [newClient]. *)
Definition New (fuel : nat) (apiToken' : string) : M (option Client * option Error) :=
  _ ← put_client (mkClient 0 apiToken');
  r ← port_loop port_count fuel apiToken' joplinMinPortNum None;
  let '(joplinPortFound, retErr) := (r : bool * option Error) in
  if negb joplinPortFound then mret (None, retErr)
  else c ← get_client; mret (Some c, None).

(** ** Every method of [*Client] *)

Inductive Op :=
| OgetAuthToken
| OgetApiToken (authToken : string)
| OGetTag (id fields : string)
| OCreateTag (title : string)
| OGetNote (id fields : string)
| OUpdateNote (id title parent_id : string)
| OList (call : ListCall)
| OGetFolder (id fields : string)
| ODeleteTag (id : string)
| ODeleteTagFromNote (tagID noteID : string)
| OGetApiToken
| OCreateTagsNotes (note_id tagID : string)
| OUpdateNoteAuthor (note : Entity) (value : string)
| OGetAuthorField (note : Entity)
| OCreateFolder (folder_name parent_id : string)
| ODeleteFolder (folder_id : string).

Definition ignore {A} (m : M A) : M unit := _ ← m; mret tt.

Definition run_op (fuel : nat) (op : Op) : M unit :=
  match op with
  | OgetAuthToken => ignore getAuthToken
  | OgetApiToken t => ignore (getApiToken fuel t)
  | OGetTag id f => ignore (GetTag id f)
  | OCreateTag t => ignore (CreateTag t)
  | OGetNote id f => ignore (GetNote id f)
  | OUpdateNote id t p => ignore (UpdateNote id t p)
  | OList call => ignore (run_list fuel call)
  | OGetFolder id f => ignore (GetFolder id f)
  | ODeleteTag id => ignore (DeleteTag id)
  | ODeleteTagFromNote t n => ignore (DeleteTagFromNote t n)
  | OGetApiToken => ignore GetApiToken
  | OCreateTagsNotes n t => ignore (CreateTagsNotes n t)
  | OUpdateNoteAuthor n v => ignore (UpdateNoteAuthor n v)
  | OGetAuthorField n => ignore (GetAuthorField n)
  | OCreateFolder n p => ignore (CreateFolder n p)
  | ODeleteFolder id => ignore (DeleteFolder id)
  end.

(** ** The command-line program (cmd/goplin/main.go)

    main.go also calls methods with other signatures than goplin.go has
    ([GetTag(id)], [GetAllNotes(orderBy, orderDir)], [GetNotes]); only the
    parts that use the library as it is are embedded.  Lines printed with
    [fmt.Printf] are returned in the order they are printed; the [Debug]
    switch only turns on req's global dumps and is left out. *)

Definition newline : string := String (ascii_of_nat 10) EmptyString.

(** [fmt.Printf("Could not find tag with ID '%s'\n", id)] *)
Definition not_found_line (id : string) : string :=
  String.append "Could not find tag with ID '" (String.append id (String.append "'" newline)).

(** [fmt.Printf("Tag with ID '%s' deleted'\n", id)] *)
Definition deleted_line (id : string) : string :=
  String.append "Tag with ID '" (String.append id (String.append "' deleted'" newline)).

(** [DeleteTagsCmd.Run]: the [for _, id := range dtc.IDs] loop; it
    always returns nil. *)
Fixpoint DeleteTagsCmd_Run (IDs : list string) : M (list string) :=
  match IDs with
  | [] => mret []
  | id :: IDs' =>
    err ← DeleteTag id;
    let line := match err with Some _ => not_found_line id | None => deleted_line id end in
    rest ← DeleteTagsCmd_Run IDs';
    mret (line :: rest)
  end.

(** [tagsFound] of [ListTagsCmd.Run] with [--duplicates-only]:
    [tagsFound[tag.Title] = append(tagsFound[tag.Title], tag.ID)] over the
    tags in order (a missing key reads as the nil slice). *)
Definition tagsFound (tags : list Entity) : gmap string (list string) :=
  foldl (λ m tag, <[Title tag := default [] (m !! Title tag) ++ [ID tag]]> m) ∅ tags.

(** The entries [for title, ids := range tagsFound] prints:
    [if len(ids) > 1].  Go's map order is unspecified, so they are kept as
    a map. *)
Definition duplicateTags (tags : list Entity) : gmap string (list string) :=
  filter (λ kv : string * list string, (1 < length kv.2)%nat) (tagsFound tags).

(** How [main] continues after [goplin.New]: [log.Fatal(err)], a nil
    pointer dereference in [client.GetApiToken()], or on to the command
    with the client (and the API token written to ~/.goplin when none was
    configured; writing the file is taken to succeed). *)
Inductive MainStart :=
| MainFatal (e : Error)
| MainNilDereference
| MainReady (client : option Client) (saved_token : option string).

Definition main_start (fuel : nat) (apiToken' : string) : M MainStart :=
  r ← New fuel apiToken';
  let '(client, err) := (r : option Client * option Error) in
  match err with
  | Some e => mret (MainFatal e)
  | None =>
    if negb (nonempty apiToken') then
      match client with
      | None => mret MainNilDereference
      | Some c => mret (MainReady client (Some (apiToken c)))
      end
    else mret (MainReady client None)
  end.

(** ** Specification vocabulary *)

(** [m], run from a world whose receiver is [c], leaves the receiver as it
    is and only appends events whose requests satisfy [R c]. *)
Definition respects_on {A} (c : Client) (R : Client -> Request -> Prop) (m : M A)
    : Prop :=
  ∀ srv w, w_client w = c →
    w_client (snd (m srv w)) = c ∧
    ∃ evs, w_trace (snd (m srv w)) = w_trace w ++ evs ∧
           ∀ r, EvRequest r ∈ evs → R c r.

(** Requests of a session: sent to the session port, never a [/ping] probe. *)
Definition session_request (c : Client) (r : Request) : Prop :=
  rq_port r = port c ∧ rq_path r ≠ "/ping".

(** [n] polls with a one-second sleep between consecutive ones. *)
Fixpoint polls_sleeping (r : Request) (n : nat) : list Event :=
  match n with
  | O => []
  | S O => [EvRequest r]
  | S n' => EvRequest r :: EvSleep 1 :: polls_sleeping r n'
  end.

(** A successful [/auth/check] answer with the given status. *)
Definition poll_answer (status : string) (o : Outcome) : Prop :=
  ∃ code b dump, o = Response code b dump ∧ IsSuccess code = true ∧
                 b_status b = Some status.

(** A body whose only field is the pairing status [s]. *)
Definition status_body (s : string) : Body := mkBody None None (Some s) None None None None.

(** The [/ping] probe of port [i] and its verdicts. *)
Definition ping_request (i : Z) : Request := mkRequest GET i "/ping" [] ∅ [].

Definition ping_fails (o : Outcome) : Prop :=
  match o with
  | TransportError _ => True
  | Response code _ _ => IsSuccess code = false
  end.

Definition ping_ok (o : Outcome) : Prop :=
  ∃ code b dump, o = Response code b dump ∧ IsSuccess code = true.

(** The ports [lo], [lo + 1], ..., [hi]. *)
Definition port_range (lo hi : Z) : list Z :=
  map (fun k => lo + Z.of_nat k) (seq 0 (Z.to_nat (hi - lo + 1))).

(** A successful page answer carrying [items] and the has-more flag [more]. *)
Definition page_answer (items : list Entity) (more : bool) (o : Outcome) : Prop :=
  ∃ code b dump, o = Response code b dump ∧ IsSuccess code = true ∧
                 b_items b = Some items ∧ b_has_more b = Some more.

(** A failed page: a transport error or an HTTP error status. *)
Definition page_failure (o : Outcome) : Prop :=
  (∃ e, o = TransportError e) ∨
  (∃ code b dump, o = Response code b dump ∧ IsError code = true).

(** The query map of page [i] of a list call whose first query map is [q0]. *)
Definition page_query (q0 : gmap string string) (i : nat) : gmap string string :=
  <["page" := Itoa (Z.of_nat i)]> q0.

Definition page_event (mk : gmap string string → Request) (q0 : gmap string string)
    (i : nat) : Event :=
  EvRequest (mk (page_query q0 i)).

(** The class of an error, as a caller tells errors apart. *)
Inductive ErrClass := NotFoundClass | ErrorResponseClass | OtherClass.

Definition error_class (e : Error) : ErrClass :=
  match e with
  | ErrCouldNotFind _ _ => NotFoundClass
  | ErrErrorResponse _ => ErrorResponseClass
  | _ => OtherClass
  end.

(** An answer that is a response with a success status. *)
Definition answer_ok (o : Outcome) : bool :=
  match o with
  | TransportError _ => false
  | Response code _ _ => IsSuccess code
  end.

(** The request [DeleteTag(id)] sends. *)
Definition delete_tag_request (c : Client) (id : string) : Request :=
  mkRequest DELETE (port c) "/tags/{id}" [("id", id)] (token_query c) [].

(** A response whose status is neither a success nor an error (1xx, 3xx). *)
Definition neither_answer (o : Outcome) : Prop :=
  ∃ code b dump, o = Response code b dump ∧ IsSuccess code = false ∧ IsError code = false.

(** The requests of discovery and pairing: [GET /ping] and [POST /auth]
    with no query parameter, [GET /auth/check] with [auth_token] as its only
    query parameter. *)
Definition discovery_request (r : Request) : Prop :=
  (rq_method r = GET ∧ rq_path r = "/ping" ∧ rq_query r = ∅) ∨
  (rq_method r = POST ∧ rq_path r = "/auth" ∧ rq_query r = ∅) ∨
  (rq_method r = GET ∧ rq_path r = "/auth/check" ∧
   ∃ a, rq_query r = {[ "auth_token" := a ]}).

(** The [POST /auth] request of [getAuthToken] on port [P]. *)
Definition auth_request (P : Z) : Request := mkRequest POST P "/auth" [] ∅ [].

(** [m] only appends events whose requests satisfy [R] (the receiver may
    change). *)
Definition sends_only {A} (R : Request -> Prop) (m : M A) : Prop :=
  ∀ srv w, ∃ evs, w_trace (snd (m srv w)) = w_trace w ++ evs ∧
                  ∀ r, EvRequest r ∈ evs → R r.

(** The methods that call the Data API with the session's token: all but
    the two pairing steps and the [GetApiToken] accessor. *)
Definition is_data_op (op : Op) : bool :=
  match op with
  | OgetAuthToken | OgetApiToken _ | OGetApiToken => false
  | _ => true
  end.

(** ** Frame lemmas *)

Section Respects.
Context (c : Client) (R : Client -> Request -> Prop).

Lemma respects_ret {A} (a : A) : respects_on c R (mret a).
Proof. intros srv w Hw. split; [done|]. exists []. rewrite app_nil_r. set_solver. Qed.

Lemma respects_diverge {A} : respects_on (A:=A) c R diverge.
Proof. intros srv w Hw. split; [done|]. exists []. rewrite app_nil_r. set_solver. Qed.

Lemma respects_send r : R c r → respects_on c R (send r).
Proof.
  intros HR srv w Hw. split; [done|]. exists [EvRequest r]. split; [done|].
  intros r' Hr'. apply list_elem_of_singleton in Hr'. by inversion Hr'; subst.
Qed.

Lemma respects_sleep s : respects_on c R (sleep s).
Proof. intros srv w Hw. split; [done|]. exists [EvSleep s]. split; [done|]. set_solver. Qed.

Lemma respects_bind {A B} (m : M A) (k : A → M B) :
  respects_on c R m → (∀ a, respects_on c R (k a)) → respects_on c R (m ≫= k).
Proof.
  intros Hm Hk srv w Hw. unfold mbind, M_bind.
  destruct (Hm srv w Hw) as [Hc1 [evs1 [Ht1 HR1]]].
  destruct (m srv w) as [[a|] w'] eqn:E; simpl in *.
  - destruct (Hk a srv w' Hc1) as [Hc2 [evs2 [Ht2 HR2]]].
    split; [done|]. exists (evs1 ++ evs2). split.
    + by rewrite Ht2, Ht1, app_assoc.
    + intros r Hr. apply elem_of_app in Hr as [Hr|Hr]; auto.
  - split; [done|]. by exists evs1.
Qed.

Lemma respects_get_client {B} (k : Client → M B) :
  respects_on c R (k c) → respects_on c R (get_client ≫= k).
Proof.
  intros Hk srv w Hw. unfold mbind, M_bind, get_client. simpl. rewrite Hw.
  by apply Hk.
Qed.

End Respects.

Ltac respects_auto :=
  repeat first
    [ apply respects_ret
    | apply respects_diverge
    | apply respects_sleep
    | apply respects_get_client
    | apply respects_bind; [ | intros ? ]
    | apply respects_send
    | progress cbv beta zeta
    | case_match ].

Lemma fetch_loop_respects c R (Pq : gmap string string → Prop) fuel mk on_error
    queryParams page result acc :
  (∀ q, Pq q → R c (mk q)) →
  (∀ q p, Pq q → Pq (<["page" := p]> q)) →
  Pq queryParams →
  respects_on c R (fetch_loop fuel mk on_error queryParams page result acc).
Proof.
  intros Hmk Hins. revert queryParams page result acc.
  induction fuel as [|fuel IH]; intros queryParams page result acc Hq; cbn [fetch_loop].
  - apply respects_diverge.
  - respects_auto; auto.
Qed.

Lemma poll_loop_respects c fuel authToken retries result :
  respects_on c session_request (poll_loop fuel authToken retries result).
Proof.
  revert retries result.
  induction fuel as [|fuel IH]; intros retries result; cbn [poll_loop].
  - apply respects_diverge.
  - respects_auto; auto. split; [done|]. discriminate.
Qed.

Lemma getAuthToken_respects c : respects_on c session_request getAuthToken.
Proof. unfold getAuthToken. respects_auto; split; first [done | discriminate]. Qed.

Lemma getApiToken_respects c fuel authToken :
  respects_on c session_request (getApiToken fuel authToken).
Proof.
  unfold getApiToken. apply respects_bind; [apply poll_loop_respects|].
  intros [[? ?] ?]. respects_auto.
Qed.

Lemma run_list_respects c fuel call :
  respects_on c session_request (run_list fuel call).
Proof.
  destruct call; cbn [run_list];
    unfold GetNotesByTag, GetAllNotes, GetNotesInFolder, GetAllFolders,
      GetAllTags, Search, GetNoteTags;
    apply respects_get_client; cbv beta zeta;
    apply (fetch_loop_respects _ _ (λ _, True)); auto;
    intros; split; first [done | discriminate].
Qed.

Lemma run_op_respects c fuel op : respects_on c session_request (run_op fuel op).
Proof.
  destruct op; cbn [run_op]; unfold ignore;
    (apply respects_bind; [ | intros; apply respects_ret ]);
    first [ apply getAuthToken_respects | apply getApiToken_respects
          | apply run_list_respects
          | unfold GetTag, CreateTag, GetNote, UpdateNote, GetFolder, DeleteTag,
              DeleteTagFromNote, GetApiToken, CreateTagsNotes, UpdateNoteAuthor,
              GetAuthorField, CreateFolder, DeleteFolder;
            respects_auto; split; first [done | discriminate] ].
Qed.

(** C9: every method of [*Client] leaves the session's [port] and [apiToken]
    unchanged: the Endpoint Session is immutable once [New] has returned. *)
Theorem client_session_immutable (fuel : nat) (op : Op) (srv : Server) (w : World) :
  port (w_client (snd (run_op fuel op srv w))) = port (w_client w) ∧
  apiToken (w_client (snd (run_op fuel op srv w))) = apiToken (w_client w).
Proof.
  destruct (run_op_respects (w_client w) fuel op srv w eq_refl) as [Hc _].
  by rewrite Hc.
Qed.

(** ** Computation lemmas for the monad *)

Lemma bind_send {B} (r : Request) (k : Outcome → M B) srv w :
  (send r ≫= k) srv w =
  k (srv (requests_of (w_trace w)) r) srv (mkWorld (w_client w) (w_trace w ++ [EvRequest r])).
Proof. reflexivity. Qed.

Lemma bind_get_client {B} (k : Client → M B) srv w :
  (get_client ≫= k) srv w = k (w_client w) srv w.
Proof. reflexivity. Qed.

Lemma ret_run {A} (a : A) srv w : mret (M:=M) a srv w = (Some a, w).
Proof. reflexivity. Qed.

Lemma IsSuccess_not_IsError code : IsSuccess code = true → IsError code = false.
Proof.
  unfold IsSuccess, IsError. intros H. apply andb_true_iff in H as [_ H].
  apply Z.ltb_lt in H. apply Z.ltb_ge. lia.
Qed.

Lemma world_app_nil w : mkWorld (w_client w) (w_trace w ++ []) = w.
Proof. destruct w; simpl. by rewrite app_nil_r. Qed.

Lemma map_nth_pred_seq (l : list (list Entity)) :
  map (λ i, nth (i - 1) l []) (seq 1 (length l)) = l.
Proof.
  induction l as [|x l IH]; [done|]. simpl length. rewrite <- cons_seq. simpl.
  f_equal. rewrite <- seq_shift, map_map. rewrite <- IH at 2.
  apply map_ext_in. intros i Hi. apply in_seq in Hi.
  destruct i; [lia|]. simpl. by rewrite Nat.sub_0_r.
Qed.

(** ** The paginated fetcher, page by page *)

Section Fetch.
Context (mk : gmap string string → Request) (on_error : Z → string → Error)
        (q0 : gmap string string) (items_of : nat → list Entity) (srv : Server).

Lemma page_query_next i :
  <["page" := Itoa (Z.of_nat i + 1)]> (page_query q0 i) = page_query q0 (S i).
Proof.
  unfold page_query. rewrite insert_insert_eq. do 3 f_equal. lia.
Qed.

Lemma fetch_loop_more (n : nat) : ∀ fuel j result acc w,
  (∀ past i, (j < i ≤ j + n)%nat →
     page_answer (items_of i) true (srv past (mk (page_query q0 i)))) →
  ∃ result',
    fetch_loop (n + fuel) mk on_error (page_query q0 (S j)) (Z.of_nat (S j)) result acc srv w =
    fetch_loop fuel mk on_error (page_query q0 (S (j + n))) (Z.of_nat (S (j + n))) result'
      (acc ++ concat (map items_of (seq (S j) n)))
      srv (mkWorld (w_client w) (w_trace w ++ map (page_event mk q0) (seq (S j) n))).
Proof.
  induction n as [|n IH]; intros fuel j result acc w Hsrv.
  - exists result. simpl. rewrite Nat.add_0_r, app_nil_r. by rewrite world_app_nil.
  - cbn [Nat.add fetch_loop]. rewrite bind_send.
    destruct (Hsrv (requests_of (w_trace w)) (S j)) as (code & b & dump & E & Hs & Hi & Hm);
      [lia|].
    rewrite E. cbv beta zeta. rewrite (IsSuccess_not_IsError _ Hs), Hs.
    unfold decode_page. rewrite Hs, Hi, Hm. cbn [orb HasMore Items].
    rewrite page_query_next.
    replace (Z.of_nat (S j) + 1) with (Z.of_nat (S (S j))) by lia.
    destruct (IH fuel (S j) (mkPageResult (items_of (S j)) true) (acc ++ items_of (S j))
                (mkWorld (w_client w) (w_trace w ++ [EvRequest (mk (page_query q0 (S j)))])))
      as [result' IHe].
    { intros past i Hi'. apply Hsrv. lia. }
    exists result'. rewrite IHe. simpl.
    replace (S (j + S n)) with (S (S j + n)) by lia.
    by rewrite <- !app_assoc.
Qed.

Lemma fetch_loop_last fuel i result acc w items :
  page_answer items false (srv (requests_of (w_trace w)) (mk (page_query q0 i))) →
  fetch_loop (S fuel) mk on_error (page_query q0 i) (Z.of_nat i) result acc srv w =
  (Some (acc ++ items, None), mkWorld (w_client w) (w_trace w ++ [page_event mk q0 i])).
Proof.
  intros (code & b & dump & E & Hs & Hi & Hm).
  cbn [fetch_loop]. rewrite bind_send, E. cbv beta zeta.
  rewrite (IsSuccess_not_IsError _ Hs), Hs.
  unfold decode_page. rewrite Hs, Hi, Hm. reflexivity.
Qed.

Lemma fetch_loop_fail fuel i result acc w :
  page_failure (srv (requests_of (w_trace w)) (mk (page_query q0 i))) →
  ∃ err, fst (fetch_loop (S fuel) mk on_error (page_query q0 i) (Z.of_nat i) result acc srv w)
         = Some (acc, Some err).
Proof.
  intros [[e E] | (code & b & dump & E & He)];
    cbn [fetch_loop]; rewrite bind_send, E; cbv beta zeta.
  - by eexists.
  - rewrite He. by eexists.
Qed.

End Fetch.

Lemma list_query_page call c : list_query call c !! "page" = Some (Itoa 1).
Proof.
  destruct call; cbn [list_query]; unfold order_query, search_query;
    repeat case_match; by simplify_map_eq.
Qed.

Lemma list_request_query call c q : rq_query (list_request call c q) = q.
Proof. by destruct call. Qed.

Lemma run_list_fetch fuel call srv w :
  run_list fuel call srv w =
  fetch_loop fuel (list_request call (w_client w)) (list_on_error call)
    (page_query (list_query call (w_client w)) 1) 1 zeroPage [] srv w.
Proof.
  unfold page_query. rewrite insert_id by apply list_query_page.
  by destruct call.
Qed.

(** C1: when the server answers pages 1..k-1 with has_more=true and page k
    with has_more=false, a list call issues exactly k requests, for pages
    1, 2, ..., k in this order, and returns the concatenation of the pages'
    items, in the server's order, with no error. *)
Theorem list_call_all_pages (fuel : nat) (call : ListCall)
    (pages : list (list Entity)) (srv : Server) (w : World) :
  (1 ≤ length pages)%nat →
  (length pages ≤ fuel)%nat →
  (∀ past r (i : nat), (1 ≤ i ≤ length pages)%nat →
     rq_query r !! "page" = Some (Itoa (Z.of_nat i)) →
     page_answer (nth (i - 1) pages []) (i <? length pages)%nat (srv past r)) →
  run_list fuel call srv w =
  (Some (concat pages, None),
   mkWorld (w_client w)
     (w_trace w ++ map (page_event (list_request call (w_client w))
                                   (list_query call (w_client w)))
                       (seq 1 (length pages)))).
Proof.
  intros Hk Hfuel Hsrv. rewrite run_list_fetch.
  set (mk := list_request call (w_client w)).
  set (q0 := list_query call (w_client w)).
  set (items_of := λ i : nat, nth (i - 1) pages []).
  destruct (length pages) as [|k] eqn:Hlen; [lia|].
  replace fuel with (k + S (fuel - S k))%nat by lia.
  destruct (fetch_loop_more mk (list_on_error call) q0 items_of srv k (S (fuel - S k))
              0 zeroPage [] w) as [result' E].
  { intros past i Hi. replace true with (i <? S k)%nat by (apply Nat.ltb_lt; lia).
    apply Hsrv; [lia|]. subst mk. rewrite list_request_query. apply lookup_insert_eq. }
  change (fetch_loop ?f ?m ?oe ?q 1 ?r ?a srv w)
    with (fetch_loop f m oe q (Z.of_nat 1) r a srv w).
  rewrite E. simpl Nat.add.
  rewrite (fetch_loop_last mk (list_on_error call) q0 srv _ _ _ _ _ (items_of (S k))).
  - f_equal.
    + rewrite <- (map_nth_pred_seq pages) at 1. rewrite Hlen, seq_S, map_app,
        concat_app. simpl. by rewrite app_nil_r.
    + by rewrite seq_S, map_app, app_assoc.
  - replace false with (S k <? S k)%nat by (apply Nat.ltb_irrefl).
    apply Hsrv; [lia|]. subst mk. rewrite list_request_query. apply lookup_insert_eq.
Qed.

(** C6: when pages 1..j succeed with has_more=true and the request for page
    j+1 fails with a transport error or an HTTP error status, a list call
    returns the items of pages 1..j together with a non-nil error. *)
Theorem list_call_partial_on_failure (fuel : nat) (call : ListCall)
    (pages : list (list Entity)) (srv : Server) (w : World) :
  (length pages < fuel)%nat →
  (∀ past r (i : nat), (1 ≤ i ≤ length pages)%nat →
     rq_query r !! "page" = Some (Itoa (Z.of_nat i)) →
     page_answer (nth (i - 1) pages []) true (srv past r)) →
  (∀ past r, rq_query r !! "page" = Some (Itoa (Z.of_nat (S (length pages)))) →
     page_failure (srv past r)) →
  ∃ err, fst (run_list fuel call srv w) = Some (concat pages, Some err).
Proof.
  intros Hfuel Hok Hfail. rewrite run_list_fetch.
  set (mk := list_request call (w_client w)).
  set (q0 := list_query call (w_client w)).
  set (items_of := λ i : nat, nth (i - 1) pages []).
  replace fuel with (length pages + S (fuel - S (length pages)))%nat by lia.
  destruct (fetch_loop_more mk (list_on_error call) q0 items_of srv (length pages)
              (S (fuel - S (length pages))) 0 zeroPage [] w) as [result' E].
  { intros past i Hi. apply Hok; [lia|]. subst mk. rewrite list_request_query.
    apply lookup_insert_eq. }
  change (fetch_loop ?f ?m ?oe ?q 1 ?r ?a srv w)
    with (fetch_loop f m oe q (Z.of_nat 1) r a srv w).
  rewrite E. simpl Nat.add.
  destruct (fetch_loop_fail mk (list_on_error call) q0 srv (fuel - S (length pages))
              (S (length pages)) result' ([] ++ concat (map items_of (seq 1 (length pages))))
              (mkWorld (w_client w) (w_trace w ++ map (page_event mk q0) (seq 1 (length pages)))))
    as [err Herr].
  { apply Hfail. subst mk. rewrite list_request_query. apply lookup_insert_eq. }
  exists err. rewrite Herr. subst items_of. by rewrite map_nth_pred_seq.
Qed.

(** ** Query parameters of the list calls *)

Lemma nonempty_spec s : nonempty s = true ↔ s ≠ "".
Proof. unfold nonempty. destruct s; simpl; split; intros H; done. Qed.

Lemma nonempty_empty : nonempty "" = false.
Proof. reflexivity. Qed.

Lemma list_query_order call c orderBy orderDir :
  list_ordering call = Some (orderBy, orderDir) →
  list_query call c !! "order_by" = (if nonempty orderBy then Some orderBy else None) ∧
  list_query call c !! "order_dir" =
    (if nonempty orderDir then Some (strings_ToUpper orderDir) else None).
Proof.
  intros H. destruct call; cbn [list_ordering] in H; inversion H; subst;
    cbn [list_query]; unfold order_query;
    destruct (nonempty orderBy), (nonempty orderDir); by simplify_map_eq.
Qed.

Lemma search_query_params query queryType fields c :
  list_query (CSearch query queryType fields) c !! "type" =
    (if nonempty queryType then Some queryType else None) ∧
  list_query (CSearch query queryType fields) c !! "fields" =
    (if nonempty fields then Some fields else None).
Proof.
  cbn [list_query]. unfold search_query.
  destruct (nonempty queryType), (nonempty fields); by simplify_map_eq.
Qed.

(** Every request of a list call carries the call's first query map, with
    its page number replaced. *)
Lemma run_list_requests fuel call c :
  respects_on c (λ c r, ∃ p, rq_query r = <["page" := p]> (list_query call c))
    (run_list fuel call).
Proof.
  intros srv w Hw. rewrite run_list_fetch. subst c.
  refine (fetch_loop_respects (w_client w)
           (λ c r, ∃ p, rq_query r = <["page" := p]> (list_query call c))
           (λ q, ∃ p, q = <["page" := p]> (list_query call (w_client w)))
           _ _ _ _ _ _ _ _ _ _ srv w eq_refl).
  - intros q [p ->]. exists p. apply list_request_query.
  - intros q p' [p ->]. exists p'. apply insert_insert_eq.
  - by exists (Itoa (Z.of_nat 1)).
Qed.

Lemma send_bind_trace {B} r (k : Outcome → M B) c R srv w :
  w_client w = c → (∀ o, respects_on c R (k o)) →
  ∃ evs, w_trace (snd ((send r ≫= k) srv w)) = w_trace w ++ EvRequest r :: evs.
Proof.
  intros Hw Hk. rewrite bind_send.
  destruct (Hk (srv (requests_of (w_trace w)) r) srv
              (mkWorld (w_client w) (w_trace w ++ [EvRequest r])) Hw)
    as [_ [evs [Ht _]]].
  exists evs. rewrite Ht. simpl. by rewrite <- app_assoc.
Qed.

Lemma run_list_first_request fuel call srv w :
  fuel ≠ 0%nat →
  ∃ evs, w_trace (snd (run_list fuel call srv w)) =
         w_trace w ++ EvRequest (list_request call (w_client w)
                                   (page_query (list_query call (w_client w)) 1)) :: evs.
Proof.
  intros Hf. destruct fuel as [|fuel]; [done|]. rewrite run_list_fetch.
  cbn [fetch_loop]. eapply (send_bind_trace _ _ (w_client w) (λ _ _, True)); [done|].
  intros o. respects_auto; auto.
  apply (fetch_loop_respects _ _ (λ _, True)); auto.
Qed.

(** C8: every request of a list call with ordering arguments carries
    order_dir = ToUpper orderDir when orderDir is not empty and
    order_by = orderBy verbatim when orderBy is not empty; the values are
    not checked: a call with fuel always issues its first request. *)
Theorem list_call_order_passthrough (fuel : nat) (call : ListCall)
    (orderBy orderDir : string) (srv : Server) (w : World) :
  list_ordering call = Some (orderBy, orderDir) →
  ∃ evs, w_trace (snd (run_list fuel call srv w)) = w_trace w ++ evs ∧
    (fuel ≠ 0%nat → ∃ r, EvRequest r ∈ evs) ∧
    ∀ r, EvRequest r ∈ evs →
      (orderDir ≠ "" → rq_query r !! "order_dir" = Some (strings_ToUpper orderDir)) ∧
      (orderBy ≠ "" → rq_query r !! "order_by" = Some orderBy).
Proof.
  intros Hord.
  destruct (run_list_requests fuel call (w_client w) srv w eq_refl) as [_ [evs [Ht Hr]]].
  exists evs. split; [done|]. split.
  - intros Hf. destruct (run_list_first_request fuel call srv w Hf) as [evs' Ht'].
    rewrite Ht in Ht'. apply app_inv_head in Ht'. subst evs.
    eexists. apply list_elem_of_here.
  - intros r Hin. destruct (Hr r Hin) as [p Hq].
    destruct (list_query_order call (w_client w) orderBy orderDir Hord) as [Hob Hod].
    rewrite Hq. split; intros Hne; apply nonempty_spec in Hne;
      rewrite lookup_insert_ne by done; [rewrite Hod | rewrite Hob]; by rewrite Hne.
Qed.

(** Go's [strings.ToUpper] is not limited to ASCII: the order direction
    "d\xc3\xa9sc" (d, e with acute accent, s, c in UTF-8) is sent as
    "D\xc3\x89SC". *)
Example strings_ToUpper_non_ascii :
  bytes_of (strings_ToUpper (string_of_bytes [100; 195; 169; 115; 99])) =
  [68; 195; 137; 83; 67].
Proof. vm_compute. reflexivity. Qed.

(** C10: an empty orderBy (orderDir) sends no order_by (order_dir)
    parameter at all, and Search sends no type (fields) parameter when
    queryType (fields) is empty. *)
Theorem list_call_omits_empty_params (fuel : nat) (call : ListCall) (srv : Server)
    (w : World) :
  ∃ evs, w_trace (snd (run_list fuel call srv w)) = w_trace w ++ evs ∧
    ∀ r, EvRequest r ∈ evs →
      (∀ orderBy orderDir, list_ordering call = Some (orderBy, orderDir) →
         (orderBy = "" → rq_query r !! "order_by" = None) ∧
         (orderDir = "" → rq_query r !! "order_dir" = None)) ∧
      (∀ query queryType fields, call = CSearch query queryType fields →
         (queryType = "" → rq_query r !! "type" = None) ∧
         (fields = "" → rq_query r !! "fields" = None)).
Proof.
  destruct (run_list_requests fuel call (w_client w) srv w eq_refl) as [_ [evs [Ht Hr]]].
  exists evs. split; [done|]. intros r Hin. destruct (Hr r Hin) as [p Hq].
  rewrite Hq. split.
  - intros ob od Hord.
    destruct (list_query_order call (w_client w) ob od Hord) as [Hob Hod].
    split; intros ->; rewrite lookup_insert_ne by done;
      [rewrite Hob | rewrite Hod]; by rewrite nonempty_empty.
  - intros q t f ->.
    destruct (search_query_params q t f (w_client w)) as [Ht' Hf'].
    split; intros ->; rewrite lookup_insert_ne by done;
      [rewrite Ht' | rewrite Hf']; by rewrite nonempty_empty.
Qed.

(** ** The pairing poll loop *)

Lemma bind_run {A B} (m : M A) (k : A → M B) srv w :
  (m ≫= k) srv w =
  match m srv w with (Some a, w') => k a srv w' | (None, w') => (None, w') end.
Proof. reflexivity. Qed.

Lemma bind_sleep {B} s (k : unit → M B) srv w :
  (sleep s ≫= k) srv w = k tt srv (mkWorld (w_client w) (w_trace w ++ [EvSleep s])).
Proof. reflexivity. Qed.

Lemma requests_of_app l1 l2 : requests_of (l1 ++ l2) = requests_of l1 ++ requests_of l2.
Proof. induction l1 as [|[] l1 IH]; simpl; by rewrite ?IH. Qed.

Lemma polls_sleeping_repeat r m :
  concat (repeat [EvRequest r; EvSleep 1] m) ++ [EvRequest r] = polls_sleeping r (S m).
Proof. induction m as [|m IH]; [done|]. simpl. by rewrite IH. Qed.

Section Poll.
Context (authToken : string) (srv : Server).

Lemma poll_loop_waits (m : nat) : ∀ fuel (j : nat) result w,
  (j + m < 20)%nat →
  (∀ past r, (length past < length (requests_of (w_trace w)) + m)%nat →
     poll_answer "waiting" (srv past r)) →
  ∃ result',
    poll_loop (m + fuel) authToken (Z.of_nat j) result srv w =
    poll_loop fuel authToken (Z.of_nat (j + m)) result' srv
      (mkWorld (w_client w)
         (w_trace w ++ concat (repeat [EvRequest (poll_request (w_client w) authToken);
                                       EvSleep 1] m))).
Proof.
  induction m as [|m IH]; intros fuel j result w Hj Hsrv.
  - exists result. simpl. rewrite Nat.add_0_r. by rewrite world_app_nil.
  - cbn [Nat.add poll_loop]. rewrite bind_get_client, bind_send.
    destruct (Hsrv (requests_of (w_trace w)) (poll_request (w_client w) authToken))
      as (code & b & dump & E & Hs & Hst); [lia|].
    rewrite E. cbv beta zeta. rewrite (IsSuccess_not_IsError _ Hs), Hs.
    assert (Hst' : Status (decode_poll code result b) = "waiting")
      by (unfold decode_poll; rewrite Hs, Hst; reflexivity).
    rewrite Hst'.
    change (String.eqb "waiting" "accepted") with false.
    change (String.eqb "waiting" "rejected") with false.
    change (String.eqb "waiting" "waiting") with true. cbv iota.
    replace (Z.of_nat j + 1 <? retriesGetApiToken) with true
      by (symmetry; apply Z.ltb_lt; unfold retriesGetApiToken; lia).
    rewrite bind_sleep. cbn [w_client w_trace].
    replace (Z.of_nat j + 1) with (Z.of_nat (S j)) by lia.
    edestruct (IH fuel (S j) (decode_poll code result b)
                 (mkWorld (w_client w) ((w_trace w ++ [EvRequest (poll_request (w_client w) authToken)])
                                        ++ [EvSleep 1])))
      as [result' IHe]; [lia| |].
    2:{ exists result'. rewrite IHe. cbn [w_client w_trace].
        replace (S j + m)%nat with (j + S m)%nat by lia.
        simpl. by rewrite <- !app_assoc. }
    intros past r Hp. apply Hsrv. cbn [w_trace] in Hp.
    rewrite !requests_of_app in Hp. simpl requests_of in Hp. rewrite !length_app in Hp. simpl length in Hp. lia.
Qed.

Lemma poll_loop_exhausted fuel result w :
  poll_answer "waiting" (srv (requests_of (w_trace w)) (poll_request (w_client w) authToken)) →
  ∃ result',
    poll_loop (S fuel) authToken 19 result srv w =
    (Some (false, Some ErrNoAnswer, result'),
     mkWorld (w_client w) (w_trace w ++ [EvRequest (poll_request (w_client w) authToken)])).
Proof.
  intros (code & b & dump & E & Hs & Hst).
  cbn [poll_loop]. rewrite bind_get_client, bind_send, E. cbv beta zeta.
  rewrite (IsSuccess_not_IsError _ Hs), Hs.
  unfold decode_poll. rewrite Hs, Hst. eexists. reflexivity.
Qed.

Lemma poll_loop_accepted fuel retries result w token :
  (∃ code b dump,
     srv (requests_of (w_trace w)) (poll_request (w_client w) authToken) = Response code b dump ∧
     IsSuccess code = true ∧ b_status b = Some "accepted" ∧ b_token b = Some token) →
  poll_loop (S fuel) authToken retries result srv w =
  (Some (true, None, mkPollResult "accepted" token),
   mkWorld (w_client w) (w_trace w ++ [EvRequest (poll_request (w_client w) authToken)])).
Proof.
  intros (code & b & dump & E & Hs & Hst & Htok).
  cbn [poll_loop]. rewrite bind_get_client, bind_send, E. cbv beta zeta.
  rewrite (IsSuccess_not_IsError _ Hs), Hs.
  unfold decode_poll. rewrite Hs, Hst, Htok. reflexivity.
Qed.

End Poll.

(** C2: with only "waiting" answers, getApiToken fails with "could not get
    an answer from user" after exactly 20 polls, one second apart; with N
    "waiting" answers (N + 1 <= 20) and then an "accepted" one, it succeeds
    after exactly N + 1 polls, one second apart, with the accepted token. *)
Theorem getApiToken_polling (fuel : nat) (authToken : string) (srv : Server) (w : World) :
  (20 ≤ fuel)%nat →
  ((∀ past r, poll_answer "waiting" (srv past r)) →
   getApiToken fuel authToken srv w =
   (Some ("", Some ErrNoAnswer),
    mkWorld (w_client w)
      (w_trace w ++ polls_sleeping (poll_request (w_client w) authToken) 20))) ∧
  (∀ (N : nat) (token : string),
     (N + 1 ≤ 20)%nat →
     (∀ past r, (length past < length (requests_of (w_trace w)) + N)%nat →
        poll_answer "waiting" (srv past r)) →
     (∀ past r, length past = (length (requests_of (w_trace w)) + N)%nat →
        ∃ code b dump, srv past r = Response code b dump ∧ IsSuccess code = true ∧
                       b_status b = Some "accepted" ∧ b_token b = Some token) →
     getApiToken fuel authToken srv w =
     (Some (token, None),
      mkWorld (w_client w)
        (w_trace w ++ polls_sleeping (poll_request (w_client w) authToken) (N + 1)))).
Proof.
  intros Hfuel. split.
  - intros Hwait. unfold getApiToken. rewrite bind_run.
    replace fuel with (19 + S (fuel - 20))%nat by lia.
    destruct (poll_loop_waits authToken srv 19 (S (fuel - 20)) 0 zeroPoll w)
      as [result' E]; [lia | auto |].
    change (Z.of_nat 0) with 0 in E. rewrite E.
    edestruct (poll_loop_exhausted authToken srv) as [result'' E']; [apply Hwait|].
    rewrite E'. cbn [w_client w_trace]. rewrite ret_run.
    rewrite <- app_assoc, polls_sleeping_repeat. reflexivity.
  - intros N token HN Hwait Hacc. unfold getApiToken. rewrite bind_run.
    replace fuel with (N + S (fuel - S N))%nat by lia.
    destruct (poll_loop_waits authToken srv N (S (fuel - S N)) 0 zeroPoll w)
      as [result' E]; [lia | auto |].
    change (Z.of_nat 0) with 0 in E. rewrite E.
    rewrite (poll_loop_accepted authToken srv _ _ _ _ token).
    + cbn [w_client w_trace]. rewrite ret_run. cbn [ApiToken].
      rewrite <- app_assoc, polls_sleeping_repeat, Nat.add_1_r. reflexivity.
    + apply Hacc. cbn [w_trace]. rewrite requests_of_app, length_app.
      f_equal. clear. induction N as [|N IH]; [done|]. simpl. by rewrite IH.
Qed.

Lemma poll_loop_pending fuel authToken retries result w :
  poll_loop fuel authToken retries result
    (λ _ _, Response 200 (status_body "pending") "") w =
  (None, mkWorld (w_client w)
           (w_trace w ++ repeat (EvRequest (poll_request (w_client w) authToken)) fuel)).
Proof.
  revert retries result w.
  induction fuel as [|fuel IH]; intros retries result w.
  - simpl. by rewrite world_app_nil.
  - cbn [poll_loop]. rewrite bind_get_client, bind_send. cbv beta zeta.
    change (IsError 200) with false. change (IsSuccess 200) with true. cbv iota.
    assert (Hst : Status (decode_poll 200 result (status_body "pending")) = "pending")
      by reflexivity.
    rewrite Hst. cbv iota.
    change (String.eqb "pending" "accepted") with false.
    change (String.eqb "pending" "rejected") with false.
    change (String.eqb "pending" "waiting") with false. cbv iota.
    rewrite IH. cbn [w_client w_trace]. by rewrite <- app_assoc.
Qed.

(** C3 (the code differs from the claim): a successful [/auth/check] answer
    whose status is "pending" is none of "accepted", "rejected", "waiting";
    [getApiToken] does not fail on it but polls again at once, without a
    sleep and without counting a retry, and so never returns. *)
Theorem getApiToken_unknown_status_keeps_polling (fuel : nat) (authToken : string)
    (w : World) :
  getApiToken fuel authToken (λ _ _, Response 200 (status_body "pending") "") w =
  (None, mkWorld (w_client w)
           (w_trace w ++ repeat (EvRequest (poll_request (w_client w) authToken)) fuel)).
Proof. unfold getApiToken. rewrite bind_run, poll_loop_pending. reflexivity. Qed.

(** ** Port discovery *)

(** C4 (the code differs from the claim): when every port answers [/ping]
    with status 500, [New] returns a nil client and a nil error: the
    error-status branch stores [err], which is nil there, in [retErr]. *)
Theorem New_all_ports_error_status (fuel : nat) (apiToken' : string) (w : World) :
  fst (New fuel apiToken' (λ _ _, Response 500 emptyBody "HTTP/1.1 500") w) =
  Some (None, None).
Proof. reflexivity. Qed.

Lemma bind_put {B} c (k : unit → M B) srv w :
  (put_client c ≫= k) srv w = k tt srv (mkWorld c (w_trace w)).
Proof. reflexivity. Qed.

Section PortScan.
Context (fuel : nat) (apiToken' : string) (srv : Server).

Lemma port_loop_skip (d : nat) : ∀ n i retErr w,
  (∀ past k, (k < d)%nat → ping_fails (srv past (ping_request (i + Z.of_nat k)))) →
  ∃ retErr',
    port_loop (d + n) fuel apiToken' i retErr srv w =
    port_loop n fuel apiToken' (i + Z.of_nat d) retErr' srv
      (mkWorld (w_client w)
         (w_trace w ++ map (λ k, EvRequest (ping_request (i + Z.of_nat k))) (seq 0 d))).
Proof.
  induction d as [|d IH]; intros n i retErr w Hf.
  - exists retErr. simpl. rewrite Z.add_0_r. by rewrite world_app_nil.
  - assert (Hnext : ∀ retErr1, ∃ retErr',
      port_loop (d + n) fuel apiToken' (i + 1) retErr1 srv
        (mkWorld (w_client w) (w_trace w ++ [EvRequest (ping_request i)])) =
      port_loop n fuel apiToken' (i + Z.of_nat (S d)) retErr' srv
        (mkWorld (w_client w)
           (w_trace w ++ map (λ k, EvRequest (ping_request (i + Z.of_nat k))) (seq 0 (S d))))).
    { intros retErr1.
      destruct (IH n (i + 1) retErr1
                  (mkWorld (w_client w) (w_trace w ++ [EvRequest (ping_request i)])))
        as [retErr' E].
      { intros past k Hk. replace (i + 1 + Z.of_nat k) with (i + Z.of_nat (S k)) by lia.
        apply Hf. lia. }
      exists retErr'. rewrite E. cbn [w_client w_trace].
      replace (i + 1 + Z.of_nat d) with (i + Z.of_nat (S d)) by lia.
      rewrite <- cons_seq. cbn [map]. rewrite <- seq_shift, map_map.
      rewrite Z.add_0_r, <- app_assoc. cbn [app]. do 4 f_equal.
      apply map_ext. intros k. do 2 f_equal. lia. }
    cbn [Nat.add port_loop].
    change (mkRequest GET i "/ping" [] ∅ []) with (ping_request i).
    rewrite bind_send.
    pose proof (Hf (requests_of (w_trace w)) 0%nat ltac:(lia)) as H0.
    rewrite Z.add_0_r in H0.
    destruct (srv (requests_of (w_trace w)) (ping_request i)) as [e|code b dump];
      cbn [ping_fails] in H0; cbv beta zeta.
    + apply Hnext.
    + rewrite H0. destruct (IsError code); apply Hnext.
Qed.

End PortScan.

Ltac norm_in H :=
  repeat progress (rewrite ?ret_run, ?bind_get_client, ?bind_put in H;
                   cbn [negb] in H).

(** C5: [New] probes the ports upward from 41184; when P is the first port
    whose [/ping] answer is a success, the probes are exactly those of
    41184..P, the session port is P, every later request (pairing) goes to
    P and is no probe, and with a token given [New] returns the client
    (P, token) with no error. *)
Theorem New_first_success_port (fuel : nat) (apiToken' : string) (srv : Server)
    (w : World) (P : Z) :
  joplinMinPortNum ≤ P ≤ joplinMaxPortNum →
  (∀ past i, joplinMinPortNum ≤ i < P → ping_fails (srv past (ping_request i))) →
  (∀ past, ping_ok (srv past (ping_request P))) →
  ∃ rest,
    w_trace (snd (New fuel apiToken' srv w)) =
      w_trace w ++ map (λ i, EvRequest (ping_request i)) (port_range joplinMinPortNum P)
                ++ rest ∧
    (∀ r, EvRequest r ∈ rest → rq_port r = P ∧ rq_path r ≠ "/ping") ∧
    port (w_client (snd (New fuel apiToken' srv w))) = P ∧
    (∀ c err, fst (New fuel apiToken' srv w) = Some (Some c, err) → port c = P) ∧
    (apiToken' ≠ "" →
       fst (New fuel apiToken' srv w) = Some (Some (mkClient P apiToken'), None)).
Proof.
  intros HP Hfail Hok.
  unfold joplinMinPortNum, joplinMaxPortNum in HP.
  set (d := Z.to_nat (P - joplinMinPortNum)).
  set (w0 := mkWorld (mkClient 0 apiToken') (w_trace w)).
  destruct (port_loop_skip fuel apiToken' srv d (S (10 - d)) joplinMinPortNum None w0)
    as [retErr' E].
  { intros past k Hk. apply Hfail. unfold d, joplinMinPortNum in *. lia. }
  assert (Hpings :
    w_trace w ++ map (λ k, EvRequest (ping_request (joplinMinPortNum + Z.of_nat k))) (seq 0 d)
              ++ [EvRequest (ping_request P)] =
    w_trace w ++ map (λ i, EvRequest (ping_request i)) (port_range joplinMinPortNum P)).
  { unfold port_range. rewrite map_map.
    replace (Z.to_nat (P - joplinMinPortNum + 1)) with (S d)
      by (unfold d, joplinMinPortNum; lia).
    rewrite seq_S, map_app. cbn [map]. do 5 f_equal. unfold d, joplinMinPortNum. lia. }
  remember (New fuel apiToken' srv w) as res eqn:Eres.
  unfold New in Eres. rewrite bind_put in Eres. cbv beta in Eres. rewrite bind_run in Eres.
  replace port_count with (d + S (10 - d))%nat in Eres
    by (unfold port_count, d, joplinMaxPortNum, joplinMinPortNum; lia).
  fold w0 in Eres. rewrite E in Eres.
  replace (joplinMinPortNum + Z.of_nat d) with P in Eres
    by (unfold d, joplinMinPortNum; lia).
  cbn [port_loop] in Eres.
  change (mkRequest GET P "/ping" [] ∅ []) with (ping_request P) in Eres.
  rewrite bind_send in Eres.
  match type of Eres with context [srv ?past (ping_request P)] =>
    destruct (Hok past) as (code & b & dump & Ek & Hs); rewrite Ek in Eres end.
  cbv beta zeta in Eres. rewrite (IsSuccess_not_IsError _ Hs), Hs in Eres.
  rewrite bind_get_client, bind_put in Eres. cbn [w_client w_trace apiToken w0] in Eres.
  set (w2 := mkWorld (mkClient P apiToken') _) in Eres.
  assert (Hw2 : w_trace w2 = w_trace w ++
                  map (λ i, EvRequest (ping_request i)) (port_range joplinMinPortNum P)).
  { subst w2. cbn [w_trace]. rewrite <- app_assoc. exact Hpings. }
  destruct (nonempty apiToken') eqn:Htok.
  - norm_in Eres. subst res. exists []. cbn [fst snd w_trace w_client].
    rewrite app_nil_r. split; [exact Hw2|]. split; [set_solver|].
    split; [done|]. split; [by intros c err [= <- <-]|]. done.
  - assert (Hlast : apiToken' ≠ "" → False).
    { intros Hne. apply nonempty_spec in Hne. congruence. }
    rewrite bind_run in Eres.
    destruct (getAuthToken_respects (mkClient P apiToken') srv w2 eq_refl)
      as [Hc3 [evs1 [Ht3 Hr1]]].
    destruct (getAuthToken srv w2) as [[[authTok [e|]]|] w3] eqn:Ea;
      cbn [fst snd] in Hc3, Ht3.
    + norm_in Eres. subst res. exists evs1. cbn [fst snd].
      rewrite Ht3, Hw2, <- app_assoc. split; [done|].
      split; [intros r Hr; apply Hr1 in Hr; exact Hr|].
      rewrite Hc3. split; [done|]. split; [discriminate|]. tauto.
    + rewrite bind_run in Eres.
      destruct (getApiToken_respects (mkClient P apiToken') fuel authTok srv w3 Hc3)
        as [Hc4 [evs2 [Ht4 Hr2]]].
      destruct (getApiToken fuel authTok srv w3) as [[[tok err]|] w4] eqn:Eb;
        cbn [fst snd] in Hc4, Ht4.
      * assert (Hrest : ∀ r, EvRequest r ∈ evs1 ++ evs2 → rq_port r = P ∧ rq_path r ≠ "/ping").
        { intros r Hr. apply elem_of_app in Hr as [Hr|Hr]; [apply Hr1 in Hr | apply Hr2 in Hr];
            exact Hr. }
        destruct err as [e|]; norm_in Eres; subst res; exists (evs1 ++ evs2);
          cbn [fst snd w_trace w_client port];
          rewrite Ht4, Ht3, Hw2, <- !app_assoc; rewrite Hc4; cbn [port];
          (split; [done|]); (split; [exact Hrest|]); (split; [done|]);
          (split; [|tauto]).
        -- discriminate.
        -- intros c err' [= <- _]. done.
      * norm_in Eres. subst res. exists (evs1 ++ evs2). cbn [fst snd].
        rewrite Ht4, Ht3, Hw2, <- !app_assoc. split; [done|].
        split.
        { intros r Hr. apply elem_of_app in Hr as [Hr|Hr];
            [apply Hr1 in Hr | apply Hr2 in Hr]; exact Hr. }
        rewrite Hc4. split; [done|]. split; [discriminate|]. tauto.
    + norm_in Eres. subst res. exists evs1. cbn [fst snd].
      rewrite Ht3, Hw2, <- app_assoc. split; [done|].
      split; [intros r Hr; apply Hr1 in Hr; exact Hr|].
      rewrite Hc3. split; [done|]. split; [discriminate|]. tauto.
Qed.

(** ** Error classification *)

(** C7 (the code differs from the claim): [DeleteTag] has no 404 branch: a
    404 answer gives the same "got error response" error as a 500 answer,
    while its sibling [GetTag] turns a 404 into "could not find tag". *)
Theorem DeleteTag_404_is_generic_error (id : string) (w : World) :
  fst (DeleteTag id (λ _ _, Response 404 emptyBody "HTTP/1.1 404 Not Found") w) =
    Some (Some (ErrErrorResponse "HTTP/1.1 404 Not Found")) ∧
  fst (DeleteTag id (λ _ _, Response 500 emptyBody "HTTP/1.1 500 Internal Server Error") w) =
    Some (Some (ErrErrorResponse "HTTP/1.1 500 Internal Server Error")) ∧
  error_class (ErrErrorResponse "HTTP/1.1 404 Not Found") =
    error_class (ErrErrorResponse "HTTP/1.1 500 Internal Server Error") ∧
  fst (GetTag id "" (λ _ _, Response 404 emptyBody "HTTP/1.1 404 Not Found") w) =
    Some (zeroEntity, Some (ErrCouldNotFind "tag with IDs" id)).
Proof. repeat split. Qed.

(** ** Witnesses: the theorems' hypotheses hold on concrete runs *)

Lemma list_call_all_pages_witness :
  run_list 3 (CGetAllNotes "id,parent_id,title" "title" "desc")
    (λ _ r, match rq_query r !! "page" with
            | Some "1" => Response 200 (mkBody (Some [mkEntity "A" "" ""; mkEntity "B" "" ""])
                                              (Some true) None None None None None) ""
            | Some "2" => Response 200 (mkBody (Some [mkEntity "C" "" ""; mkEntity "D" "" ""])
                                              (Some true) None None None None None) ""
            | Some "3" => Response 200 (mkBody (Some [mkEntity "E" "" ""])
                                              (Some false) None None None None None) ""
            | _ => Response 500 emptyBody ""
            end)
    (mkWorld (mkClient 41184 "tok") []) =
  (Some ([mkEntity "A" "" ""; mkEntity "B" "" ""; mkEntity "C" "" ""; mkEntity "D" "" "";
          mkEntity "E" "" ""], None),
   mkWorld (mkClient 41184 "tok")
     ([] ++ map (page_event (list_request (CGetAllNotes "id,parent_id,title" "title" "desc")
                                          (mkClient 41184 "tok"))
                           (list_query (CGetAllNotes "id,parent_id,title" "title" "desc")
                                       (mkClient 41184 "tok")))
                (seq 1 3))).
Proof.
  apply (list_call_all_pages 3 _ [[mkEntity "A" "" ""; mkEntity "B" "" ""];
                                  [mkEntity "C" "" ""; mkEntity "D" "" ""];
                                  [mkEntity "E" "" ""]]); [simpl; lia | simpl; lia |].
  intros past r i Hi Hq. simpl length in Hi. rewrite Hq.
  destruct i as [|[|[|[|i]]]]; try lia; do 3 eexists; repeat split; reflexivity.
Defined.

Lemma list_call_partial_on_failure_witness :
  ∃ err, fst (run_list 5 (CGetAllTags "" "")
    (λ _ r, match rq_query r !! "page" with
            | Some "1" => Response 200 (mkBody (Some [mkEntity "A" "" ""; mkEntity "B" "" ""])
                                              (Some true) None None None None None) ""
            | _ => Response 500 emptyBody "HTTP/1.1 500 Internal Server Error"
            end)
    (mkWorld (mkClient 41184 "tok") [])) =
  Some ([mkEntity "A" "" ""; mkEntity "B" "" ""], Some err).
Proof.
  apply (list_call_partial_on_failure 5 _ [[mkEntity "A" "" ""; mkEntity "B" "" ""]]);
    [simpl; lia | |].
  - intros past r i Hi Hq. simpl length in Hi. rewrite Hq.
    destruct i as [|[|i]]; try lia; do 3 eexists; repeat split; reflexivity.
  - intros past r Hq. rewrite Hq. right. do 3 eexists. split; reflexivity.
Defined.

Lemma list_call_order_passthrough_witness :
  ∃ evs, w_trace (snd (run_list 2 (CGetAllNotes "id,title" "updated_time" "desc")
                         (λ _ _, Response 500 emptyBody "") (mkWorld (mkClient 41184 "tok") [])))
         = [] ++ evs ∧
    (2%nat ≠ 0%nat → ∃ r, EvRequest r ∈ evs) ∧
    ∀ r, EvRequest r ∈ evs →
      ("desc" ≠ "" → rq_query r !! "order_dir" = Some (strings_ToUpper "desc")) ∧
      ("updated_time" ≠ "" → rq_query r !! "order_by" = Some "updated_time").
Proof.
  apply (list_call_order_passthrough 2 (CGetAllNotes "id,title" "updated_time" "desc")).
  reflexivity.
Defined.

Lemma list_call_omits_empty_params_witness :
  ∃ evs, w_trace (snd (run_list 2 (CSearch "milk" "" "")
                         (λ _ _, Response 500 emptyBody "") (mkWorld (mkClient 41184 "tok") [])))
         = [] ++ evs ∧
    ∀ r, EvRequest r ∈ evs →
      (∀ orderBy orderDir, list_ordering (CSearch "milk" "" "") = Some (orderBy, orderDir) →
         (orderBy = "" → rq_query r !! "order_by" = None) ∧
         (orderDir = "" → rq_query r !! "order_dir" = None)) ∧
      (∀ query queryType fields, CSearch "milk" "" "" = CSearch query queryType fields →
         (queryType = "" → rq_query r !! "type" = None) ∧
         (fields = "" → rq_query r !! "fields" = None)).
Proof.
  apply (list_call_omits_empty_params 2 (CSearch "milk" "" "")).
Defined.

Lemma getApiToken_polling_witness :
  getApiToken 20 "auth" (λ _ _, Response 200 (status_body "waiting") "")
    (mkWorld (mkClient 41184 "") []) =
  (Some ("", Some ErrNoAnswer),
   mkWorld (mkClient 41184 "")
     ([] ++ polls_sleeping (poll_request (mkClient 41184 "") "auth") 20)) ∧
  getApiToken 20 "auth"
    (λ past _, if (length past <? 3)%nat then Response 200 (status_body "waiting") ""
               else Response 200 (mkBody None None (Some "accepted") (Some "tok")
                                         None None None) "")
    (mkWorld (mkClient 41184 "") []) =
  (Some ("tok", None),
   mkWorld (mkClient 41184 "")
     ([] ++ polls_sleeping (poll_request (mkClient 41184 "") "auth") (3 + 1))).
Proof.
  split.
  - apply (getApiToken_polling 20 "auth" _ (mkWorld (mkClient 41184 "") [])); [lia |].
    intros past r. do 3 eexists. repeat split.
  - apply (getApiToken_polling 20 "auth" _ (mkWorld (mkClient 41184 "") [])); [lia | lia | |].
    + intros past r Hp. simpl in Hp. apply Nat.ltb_lt in Hp. rewrite Hp.
      do 3 eexists. repeat split.
    + intros past r Hp. simpl in Hp. rewrite Hp. do 3 eexists. repeat split.
Defined.

Lemma New_first_success_port_witness :
  fst (New 25 "tok"
         (λ _ r, if bool_decide (rq_port r = 41187) then Response 200 emptyBody ""
                 else TransportError "connection refused")
         (mkWorld (mkClient 0 "") [])) =
  Some (Some (mkClient 41187 "tok"), None).
Proof.
  destruct (New_first_success_port 25 "tok"
              (λ _ r, if bool_decide (rq_port r = 41187) then Response 200 emptyBody ""
                      else TransportError "connection refused")
              (mkWorld (mkClient 0 "") []) 41187) as (rest & _ & _ & _ & _ & Hok).
  - unfold joplinMinPortNum, joplinMaxPortNum. lia.
  - intros past i Hi. unfold joplinMinPortNum in Hi. cbn beta.
    rewrite bool_decide_false by (simpl; lia). exact I.
  - intros past. cbn beta. rewrite bool_decide_true by reflexivity.
    do 3 eexists. split; reflexivity.
  - apply Hok. discriminate.
Defined.

(** * Further properties of the code *)

(** ** The paginated fetcher: how a run stops *)

Section FetchStep.
Context (mk : gmap string string → Request) (on_error : Z → string → Error)
        (q0 : gmap string string) (srv : Server).

Lemma fetch_loop_step fuel i result acc w code b dump :
  srv (requests_of (w_trace w)) (mk (page_query q0 i)) = Response code b dump →
  IsSuccess code = true →
  fetch_loop (S fuel) mk on_error (page_query q0 i) (Z.of_nat i) result acc srv w =
  let result' := decode_page code result b in
  let w' := mkWorld (w_client w) (w_trace w ++ [page_event mk q0 i]) in
  if HasMore result' then
    fetch_loop fuel mk on_error (page_query q0 (S i)) (Z.of_nat (S i)) result'
      (acc ++ Items result') srv w'
  else (Some (acc ++ Items result', None), w').
Proof.
  intros E Hs. cbn [fetch_loop]. rewrite bind_send, E. cbv beta zeta.
  rewrite (IsSuccess_not_IsError _ Hs), Hs.
  destruct (HasMore (decode_page code result b)); [|reflexivity].
  rewrite page_query_next. do 2 f_equal. lia.
Qed.

Lemma fetch_loop_stop fuel i result acc w code b dump :
  srv (requests_of (w_trace w)) (mk (page_query q0 i)) = Response code b dump →
  IsSuccess code = false →
  fetch_loop (S fuel) mk on_error (page_query q0 i) (Z.of_nat i) result acc srv w =
  (Some (acc, Some (if IsError code then on_error code dump else ErrUnexpectedResponse dump)),
   mkWorld (w_client w) (w_trace w ++ [page_event mk q0 i])).
Proof.
  intros E Hs. cbn [fetch_loop]. rewrite bind_send, E. cbv beta zeta.
  destruct (IsError code); [reflexivity|]. by rewrite Hs.
Qed.

End FetchStep.

Lemma run_list_after_pages fuel call pages srv w :
  (length pages < fuel)%nat →
  (∀ past r (i : nat), (1 ≤ i ≤ length pages)%nat →
     rq_query r !! "page" = Some (Itoa (Z.of_nat i)) →
     page_answer (nth (i - 1) pages []) true (srv past r)) →
  ∃ result',
    run_list fuel call srv w =
    fetch_loop (S (fuel - S (length pages))) (list_request call (w_client w))
      (list_on_error call) (page_query (list_query call (w_client w)) (S (length pages)))
      (Z.of_nat (S (length pages))) result' (concat pages) srv
      (mkWorld (w_client w)
         (w_trace w ++ map (page_event (list_request call (w_client w))
                                       (list_query call (w_client w)))
                           (seq 1 (length pages)))).
Proof.
  intros Hfuel Hok. rewrite run_list_fetch.
  destruct (fetch_loop_more (list_request call (w_client w)) (list_on_error call)
              (list_query call (w_client w)) (λ i : nat, nth (i - 1) pages []) srv
              (length pages) (S (fuel - S (length pages))) 0 zeroPage [] w) as [result' E].
  { intros past i Hi. apply Hok; [lia|]. rewrite list_request_query.
    apply lookup_insert_eq. }
  exists result'.
  change (fetch_loop ?f ?m ?oe ?q 1 ?r ?a srv w)
    with (fetch_loop f m oe q (Z.of_nat 1) r a srv w).
  assert (Hf : fuel = (length pages + S (fuel - S (length pages)))%nat) by lia.
  rewrite Hf at 1. rewrite E. by rewrite map_nth_pred_seq.
Qed.

Lemma list_request_page call c i :
  rq_query (list_request call c (page_query (list_query call c) i)) !! "page" =
  Some (Itoa (Z.of_nat i)).
Proof. rewrite list_request_query. apply lookup_insert_eq. Qed.

(** The list methods whose error-status branch has a 404 case. *)
Lemma list_on_error_cases call code dump :
  list_on_error call code dump =
  match call with
  | CGetNotesByTag id _ _ | CGetNoteTags id _ _ =>
      if code =? 404 then ErrCouldNotFind "note with IDs" id else ErrErrorResponse dump
  | _ => ErrErrorResponse dump
  end.
Proof. by destruct call. Qed.

(** When pages 1..j succeed with has_more=true and page j+1 answers an
    error status, a list call returns the items of pages 1..j with, for
    GetNotesByTag and GetNoteTags, "could not find note with IDs" on a 404
    and "got error response" otherwise; every other list call reports
    "got error response" whatever the status, 404 included. *)
Theorem list_call_error_status (fuel : nat) (call : ListCall)
    (pages : list (list Entity)) (srv : Server) (w : World) (code : Z) (b : Body)
    (dump : string) :
  (length pages < fuel)%nat →
  (∀ past r (i : nat), (1 ≤ i ≤ length pages)%nat →
     rq_query r !! "page" = Some (Itoa (Z.of_nat i)) →
     page_answer (nth (i - 1) pages []) true (srv past r)) →
  (∀ past r, rq_query r !! "page" = Some (Itoa (Z.of_nat (S (length pages)))) →
     srv past r = Response code b dump) →
  IsError code = true →
  fst (run_list fuel call srv w) =
  Some (concat pages,
        Some (match call with
              | CGetNotesByTag id _ _ | CGetNoteTags id _ _ =>
                  if code =? 404 then ErrCouldNotFind "note with IDs" id
                  else ErrErrorResponse dump
              | _ => ErrErrorResponse dump
              end)).
Proof.
  intros Hfuel Hok Hlast He.
  destruct (run_list_after_pages fuel call pages srv w Hfuel Hok) as [result' E].
  rewrite E, fetch_loop_stop with (code := code) (b := b) (dump := dump).
  - by rewrite He, list_on_error_cases.
  - apply Hlast, list_request_page.
  - destruct (IsSuccess code) eqn:Hs; [|done].
    by rewrite (IsSuccess_not_IsError _ Hs) in He.
Qed.

(** When pages 1..j succeed with has_more=true and page j+1 answers a
    status that is neither a success nor an error (1xx, 3xx), a list call
    stops with "got unexpected response" and returns the items of pages
    1..j. *)
Theorem list_call_unexpected_status (fuel : nat) (call : ListCall)
    (pages : list (list Entity)) (srv : Server) (w : World) (code : Z) (b : Body)
    (dump : string) :
  (length pages < fuel)%nat →
  (∀ past r (i : nat), (1 ≤ i ≤ length pages)%nat →
     rq_query r !! "page" = Some (Itoa (Z.of_nat i)) →
     page_answer (nth (i - 1) pages []) true (srv past r)) →
  (∀ past r, rq_query r !! "page" = Some (Itoa (Z.of_nat (S (length pages)))) →
     srv past r = Response code b dump) →
  IsSuccess code = false → IsError code = false →
  fst (run_list fuel call srv w) = Some (concat pages, Some (ErrUnexpectedResponse dump)).
Proof.
  intros Hfuel Hok Hlast Hs He.
  destruct (run_list_after_pages fuel call pages srv w Hfuel Hok) as [result' E].
  rewrite E, fetch_loop_stop with (code := code) (b := b) (dump := dump); [by rewrite He| |done].
  apply Hlast, list_request_page.
Qed.

(** Page 2 of a list call answers with a success whose JSON has no "items"
    key: the decoded result keeps page 1's items, which are appended a
    second time. *)
Theorem list_call_page_without_items (fuel : nat) (call : ListCall)
    (l1 : list Entity) (srv : Server) (w : World) :
  (2 ≤ fuel)%nat →
  (∀ past r, rq_query r !! "page" = Some (Itoa 1) → page_answer l1 true (srv past r)) →
  (∀ past r, rq_query r !! "page" = Some (Itoa 2) →
     ∃ code b dump, srv past r = Response code b dump ∧ IsSuccess code = true ∧
                    b_items b = None ∧ b_has_more b = Some false) →
  fst (run_list fuel call srv w) = Some (l1 ++ l1, None).
Proof.
  intros Hfuel H1 H2. rewrite run_list_fetch.
  destruct fuel as [|[|fuel]]; [lia|lia|].
  destruct (H1 (requests_of (w_trace w))
              (list_request call (w_client w) (page_query (list_query call (w_client w)) 1)))
    as (code1 & b1 & dump1 & E1 & Hs1 & Hi1 & Hm1); [apply list_request_page|].
  change (fetch_loop ?f ?m ?oe ?q 1 ?r ?a srv w)
    with (fetch_loop f m oe q (Z.of_nat 1) r a srv w).
  rewrite (fetch_loop_step _ _ _ _ _ _ _ _ _ _ _ _ E1 Hs1). cbv zeta.
  unfold decode_page at 1 2 3. rewrite Hs1, Hi1, Hm1. cbn [orb HasMore Items].
  match goal with |- context [fetch_loop _ _ _ _ _ _ _ srv ?w2] => set (w' := w2) end.
  destruct (H2 (requests_of (w_trace w'))
              (list_request call (w_client w') (page_query (list_query call (w_client w')) 2)))
    as (code2 & b2 & dump2 & E2 & Hs2 & Hi2 & Hm2); [apply list_request_page|].
  rewrite (fetch_loop_step _ _ _ _ _ _ _ _ _ _ _ _ E2 Hs2). cbv zeta.
  unfold decode_page. rewrite Hs2, Hi2, Hm2. reflexivity.
Qed.

(** Page 2 of a list call answers with a success whose JSON has no
    "has_more" key: the decoded result keeps page 1's has_more=true and the
    call goes on to request page 3. *)
Theorem list_call_page_without_has_more (fuel : nat) (call : ListCall)
    (l1 l2 l3 : list Entity) (srv : Server) (w : World) :
  (3 ≤ fuel)%nat →
  (∀ past r, rq_query r !! "page" = Some (Itoa 1) → page_answer l1 true (srv past r)) →
  (∀ past r, rq_query r !! "page" = Some (Itoa 2) →
     ∃ code b dump, srv past r = Response code b dump ∧ IsSuccess code = true ∧
                    b_items b = Some l2 ∧ b_has_more b = None) →
  (∀ past r, rq_query r !! "page" = Some (Itoa 3) → page_answer l3 false (srv past r)) →
  run_list fuel call srv w =
  (Some (l1 ++ l2 ++ l3, None),
   mkWorld (w_client w)
     (w_trace w ++ map (page_event (list_request call (w_client w))
                                   (list_query call (w_client w))) (seq 1 3))).
Proof.
  intros Hfuel H1 H2 H3. rewrite run_list_fetch.
  destruct fuel as [|[|[|fuel]]]; [lia|lia|lia|].
  destruct (H1 (requests_of (w_trace w))
              (list_request call (w_client w) (page_query (list_query call (w_client w)) 1)))
    as (code1 & b1 & dump1 & E1 & Hs1 & Hi1 & Hm1); [apply list_request_page|].
  change (fetch_loop ?f ?m ?oe ?q 1 ?r ?a srv w)
    with (fetch_loop f m oe q (Z.of_nat 1) r a srv w).
  rewrite (fetch_loop_step _ _ _ _ _ _ _ _ _ _ _ _ E1 Hs1). cbv zeta.
  unfold decode_page at 1 2 3. rewrite Hs1, Hi1, Hm1. cbn [orb HasMore Items].
  match goal with |- context [fetch_loop _ _ _ _ _ _ _ srv ?w2] => set (w' := w2) end.
  destruct (H2 (requests_of (w_trace w'))
              (list_request call (w_client w') (page_query (list_query call (w_client w')) 2)))
    as (code2 & b2 & dump2 & E2 & Hs2 & Hi2 & Hm2); [apply list_request_page|].
  rewrite (fetch_loop_step _ _ _ _ _ _ _ _ _ _ _ _ E2 Hs2). cbv zeta.
  unfold decode_page at 1 2 3. rewrite Hs2, Hi2, Hm2. cbn [orb HasMore Items].
  match goal with |- context [fetch_loop _ _ _ _ _ _ _ srv ?w3] => set (w'' := w3) end.
  destruct (H3 (requests_of (w_trace w''))
              (list_request call (w_client w'') (page_query (list_query call (w_client w'')) 3)))
    as (code3 & b3 & dump3 & E3 & Hs3 & Hi3 & Hm3); [apply list_request_page|].
  rewrite (fetch_loop_step _ _ _ _ _ _ _ _ _ _ _ _ E3 Hs3). cbv zeta.
  unfold decode_page. rewrite Hs3, Hi3, Hm3. cbn [orb HasMore Items].
  subst w' w''. cbn [w_client w_trace]. rewrite <- !app_assoc. reflexivity.
Qed.

(** The pagination loop has no page limit: against a server that always
    answers has_more=true, a list call never returns, whatever the fuel,
    and issues one request per page 1, 2, 3, ... *)
Theorem list_call_no_page_limit (fuel : nat) (call : ListCall) (l : list Entity)
    (srv : Server) (w : World) :
  (∀ past r, page_answer l true (srv past r)) →
  run_list fuel call srv w =
  (None, mkWorld (w_client w)
           (w_trace w ++ map (page_event (list_request call (w_client w))
                                         (list_query call (w_client w))) (seq 1 fuel))).
Proof.
  intros Hmore. rewrite run_list_fetch.
  destruct (fetch_loop_more (list_request call (w_client w)) (list_on_error call)
              (list_query call (w_client w)) (λ _, l) srv fuel 0 0 zeroPage [] w)
    as [result' E]; [intros; apply Hmore|].
  change (fetch_loop ?f ?m ?oe ?q 1 ?r ?a srv w)
    with (fetch_loop f m oe q (Z.of_nat 1) r a srv w).
  rewrite <- (Nat.add_0_r fuel) at 1. rewrite E. reflexivity.
Qed.

(** ** Request parameters of the methods *)

Lemma respects_weaken {A} c (R R' : Client → Request → Prop) (m : M A) :
  (∀ r, R c r → R' c r) → respects_on c R m → respects_on c R' m.
Proof.
  intros HR Hm srv w Hw. destruct (Hm srv w Hw) as [Hc [evs [Ht Hr]]].
  split; [done|]. exists evs. split; [done|]. auto.
Qed.

Lemma list_query_token call c : list_query call c !! "token" = Some (apiToken c).
Proof.
  destruct call; cbn [list_query]; unfold order_query, search_query;
    repeat case_match; by simplify_map_eq.
Qed.

Lemma list_query_fields call c :
  list_query call c !! "fields" =
  match call with
  | CGetNotesByTag _ _ _ | CGetAllTags _ _ | CGetNoteTags _ _ _ => Some "id,parent_id,title"
  | CGetAllNotes f _ _ | CGetNotesInFolder _ f _ _ | CGetAllFolders f _ _ => Some f
  | CSearch _ _ f => if nonempty f then Some f else None
  end.
Proof.
  destruct call; cbn [list_query]; unfold order_query, search_query;
    repeat case_match; by simplify_map_eq.
Qed.

Lemma list_query_query q t f c : list_query (CSearch q t f) c !! "query" = Some q.
Proof. cbn [list_query]. unfold search_query. repeat case_match; by simplify_map_eq. Qed.

(** Every request of a list call carries token = the session's API token.
    Every list call but Search always sends a fields parameter, even an
    empty one: "id,parent_id,title" for GetNotesByTag, GetAllTags and
    GetNoteTags (they take no fields argument), the caller's fields for
    GetAllNotes, GetNotesInFolder and GetAllFolders; Search sends fields
    only when it is not empty, and always sends query. *)
Theorem list_call_fixed_params (fuel : nat) (call : ListCall) (srv : Server) (w : World) :
  ∃ evs, w_trace (snd (run_list fuel call srv w)) = w_trace w ++ evs ∧
    ∀ r, EvRequest r ∈ evs →
      rq_query r !! "token" = Some (apiToken (w_client w)) ∧
      rq_query r !! "fields" =
        match call with
        | CGetNotesByTag _ _ _ | CGetAllTags _ _ | CGetNoteTags _ _ _ =>
            Some "id,parent_id,title"
        | CGetAllNotes f _ _ | CGetNotesInFolder _ f _ _ | CGetAllFolders f _ _ => Some f
        | CSearch _ _ f => if nonempty f then Some f else None
        end ∧
      (∀ q t f, call = CSearch q t f → rq_query r !! "query" = Some q).
Proof.
  destruct (run_list_requests fuel call (w_client w) srv w eq_refl) as [_ [evs [Ht Hr]]].
  exists evs. split; [done|]. intros r Hin. destruct (Hr r Hin) as [p Hq].
  rewrite Hq, !lookup_insert_ne by done.
  split; [apply list_query_token|]. split; [apply list_query_fields|].
  intros q t f ->. apply list_query_query.
Qed.

Lemma run_op_token c fuel op :
  is_data_op op = true →
  respects_on c (λ c r, rq_query r !! "token" = Some (apiToken c)) (run_op fuel op).
Proof.
  intros Hop. destruct op; try discriminate; cbn [run_op]; unfold ignore;
    (apply respects_bind; [ | intros; apply respects_ret ]).
  all: first
    [ eapply respects_weaken; [|apply run_list_requests];
      intros r [p ->]; cbn beta; rewrite lookup_insert_ne by done;
      apply list_query_token
    | unfold GetTag, CreateTag, GetNote, UpdateNote, GetFolder, DeleteTag,
        DeleteTagFromNote, CreateTagsNotes, UpdateNoteAuthor, GetAuthorField, CreateFolder,
        DeleteFolder, token_query; respects_auto; cbn [rq_query]; by simplify_map_eq ].
Qed.

(** Every request of a Data API method (all methods but the two pairing
    steps getAuthToken, getApiToken and the GetApiToken accessor) carries
    token = the session's API token. *)
Theorem data_ops_send_token (fuel : nat) (op : Op) (srv : Server) (w : World) :
  is_data_op op = true →
  ∃ evs, w_trace (snd (run_op fuel op srv w)) = w_trace w ++ evs ∧
    ∀ r, EvRequest r ∈ evs → rq_query r !! "token" = Some (apiToken (w_client w)).
Proof.
  intros Hop. destruct (run_op_token (w_client w) fuel op Hop srv w eq_refl)
    as [_ [evs [Ht Hr]]].
  by exists evs.
Qed.

(** ** Pairing: the other answers of /auth/check *)

Lemma poll_loop_rejected authToken srv fuel retries result w :
  poll_answer "rejected" (srv (requests_of (w_trace w)) (poll_request (w_client w) authToken)) →
  ∃ result',
    poll_loop (S fuel) authToken retries result srv w =
    (Some (false, Some ErrRejected, result'),
     mkWorld (w_client w) (w_trace w ++ [EvRequest (poll_request (w_client w) authToken)])).
Proof.
  intros (code & b & dump & E & Hs & Hst).
  cbn [poll_loop]. rewrite bind_get_client, bind_send, E. cbv beta zeta.
  rewrite (IsSuccess_not_IsError _ Hs), Hs.
  unfold decode_poll. rewrite Hs, Hst. eexists. reflexivity.
Qed.

(** With N "waiting" answers (N + 1 <= 20) and then a "rejected" one,
    getApiToken fails with "request rejected" and an empty token after
    exactly N + 1 polls, one second apart. *)
Theorem getApiToken_rejected (fuel : nat) (authToken : string) (srv : Server) (w : World)
    (N : nat) :
  (N + 1 ≤ 20)%nat → (N + 1 ≤ fuel)%nat →
  (∀ past r, (length past < length (requests_of (w_trace w)) + N)%nat →
     poll_answer "waiting" (srv past r)) →
  (∀ past r, length past = (length (requests_of (w_trace w)) + N)%nat →
     poll_answer "rejected" (srv past r)) →
  getApiToken fuel authToken srv w =
  (Some ("", Some ErrRejected),
   mkWorld (w_client w)
     (w_trace w ++ polls_sleeping (poll_request (w_client w) authToken) (N + 1))).
Proof.
  intros HN Hfuel Hwait Hrej. unfold getApiToken. rewrite bind_run.
  replace fuel with (N + S (fuel - S N))%nat by lia.
  destruct (poll_loop_waits authToken srv N (S (fuel - S N)) 0 zeroPoll w)
    as [result' E]; [lia | auto |].
  change (Z.of_nat 0) with 0 in E. rewrite E.
  destruct (poll_loop_rejected authToken srv (fuel - S N) (Z.of_nat (0 + N)) result'
              (mkWorld (w_client w)
                 (w_trace w ++ concat (repeat [EvRequest (poll_request (w_client w) authToken);
                                               EvSleep 1] N))))
    as [result'' E'].
  { apply Hrej. cbn [w_trace]. rewrite requests_of_app, length_app.
    f_equal. clear. induction N as [|N IH]; [done|]. simpl. by rewrite IH. }
  rewrite E'. cbn [w_client w_trace]. rewrite ret_run.
  rewrite <- app_assoc, polls_sleeping_repeat, Nat.add_1_r. reflexivity.
Qed.

Lemma poll_loop_neither_prefix (K : nat) : ∀ fuel authToken retries result srv w,
  (∀ past r, (length past < length (requests_of (w_trace w)) + K)%nat →
     neither_answer (srv past r)) →
  poll_loop (K + fuel) authToken retries result srv w =
    poll_loop fuel authToken retries result srv
      (mkWorld (w_client w)
         (w_trace w ++ repeat (EvRequest (poll_request (w_client w) authToken)) K)).
Proof.
  induction K as [|K IH]; intros fuel authToken retries result srv w Hn.
  - cbn [Nat.add repeat]. by rewrite world_app_nil.
  - cbn [Nat.add poll_loop]. rewrite bind_get_client, bind_send.
    destruct (Hn (requests_of (w_trace w)) (poll_request (w_client w) authToken)
                 ltac:(lia)) as (code & b & dump & Eo & Hs & He).
    rewrite Eo. cbv beta zeta.
    assert (Hd : decode_poll code result b = result)
      by (unfold decode_poll; by rewrite Hs, He).
    rewrite Hd, He, Hs. rewrite IH.
    + cbn [w_client w_trace]. by rewrite <- app_assoc.
    + intros past r Hp. apply Hn. cbn [w_trace] in Hp.
      rewrite requests_of_app in Hp. cbn in Hp. rewrite length_app in Hp. cbn in Hp. lia.
Qed.

(** An /auth/check answer whose status is neither a success nor an error
    (1xx, 3xx) has no branch in getApiToken's loop: at any point of the
    loop, K such answers in a row only add K polls, with no sleep, and
    leave the retry counter and the decoded result as they were, so the
    loop then goes on exactly as before them; while such answers go on,
    getApiToken never returns. *)
Theorem getApiToken_neither_status_repolls (K fuel : nat) (authToken : string)
    (retries : Z) (result : PollResult) (srv : Server) (w : World) :
  (∀ past r, (length past < length (requests_of (w_trace w)) + K)%nat →
     neither_answer (srv past r)) →
  poll_loop (K + fuel) authToken retries result srv w =
    poll_loop fuel authToken retries result srv
      (mkWorld (w_client w)
         (w_trace w ++ repeat (EvRequest (poll_request (w_client w) authToken)) K)) ∧
  getApiToken K authToken srv w =
    (None, mkWorld (w_client w)
             (w_trace w ++ repeat (EvRequest (poll_request (w_client w) authToken)) K)).
Proof.
  intros Hn. split; [by apply poll_loop_neither_prefix|].
  pose proof (poll_loop_neither_prefix K 0 authToken 0 zeroPoll srv w Hn) as H0.
  rewrite Nat.add_0_r in H0.
  unfold getApiToken. rewrite bind_run, H0. reflexivity.
Qed.

(** ** Port discovery: the end of the scan and the pairing at the port *)

Lemma requests_of_map {X} (g : X → Request) (l : list X) :
  requests_of (map (λ x, EvRequest (g x)) l) = map g l.
Proof. induction l as [|x l IH]; simpl; by rewrite ?IH. Qed.

Lemma port_range_shift lo n :
  port_range lo (lo + Z.of_nat n) = map (λ k, lo + Z.of_nat k) (seq 0 (S n)).
Proof. unfold port_range. do 2 f_equal. lia. Qed.

Lemma New_scan_all_fail fuel apiToken' srv w :
  (∀ past i, ping_fails (srv past (ping_request i))) →
  ∃ retErr,
  New fuel apiToken' srv w =
  (Some (None,
         match srv (requests_of (w_trace w) ++
                    map ping_request (port_range joplinMinPortNum (joplinMaxPortNum - 1)))
                   (ping_request joplinMaxPortNum) with
         | TransportError e => Some (ErrTransport e)
         | Response code _ _ => if IsError code then None else retErr
         end),
   mkWorld (mkClient 0 apiToken')
     (w_trace w ++ map (λ i, EvRequest (ping_request i))
                       (port_range joplinMinPortNum joplinMaxPortNum))).
Proof.
  intros Hfail.
  destruct (port_loop_skip fuel apiToken' srv 10 1 joplinMinPortNum None
              (mkWorld (mkClient 0 apiToken') (w_trace w))) as [retErr' E].
  { intros past k _. apply Hfail. }
  exists retErr'.
  unfold New. rewrite bind_put. cbv beta. rewrite bind_run.
  change port_count with (10 + 1)%nat. rewrite E.
  cbn [port_loop w_client w_trace].
  change (mkRequest GET (joplinMinPortNum + Z.of_nat 10) "/ping" [] ∅ [])
    with (ping_request joplinMaxPortNum).
  rewrite bind_send. cbn [w_client w_trace].
  rewrite requests_of_app, (requests_of_map (λ k, ping_request (joplinMinPortNum + Z.of_nat k))).
  replace (map (λ k, ping_request (joplinMinPortNum + Z.of_nat k)) (seq 0 10))
    with (map ping_request (port_range joplinMinPortNum (joplinMaxPortNum - 1)))
    by (change (joplinMaxPortNum - 1) with (joplinMinPortNum + Z.of_nat 9);
        rewrite port_range_shift, map_map; reflexivity).
  assert (Htr : (w_trace w ++ map (λ k, EvRequest (ping_request (joplinMinPortNum + Z.of_nat k)))
                                  (seq 0 10)) ++ [EvRequest (ping_request joplinMaxPortNum)] =
                w_trace w ++ map (λ i, EvRequest (ping_request i))
                                 (port_range joplinMinPortNum joplinMaxPortNum)).
  { change joplinMaxPortNum with (joplinMinPortNum + Z.of_nat 10) at 2.
    rewrite port_range_shift, map_map, <- app_assoc. reflexivity. }
  destruct (srv _ (ping_request joplinMaxPortNum)) as [e|code b dump] eqn:Eo;
    cbv beta zeta.
  - cbn [port_loop]. rewrite ret_run. cbn [negb]. rewrite ret_run. by rewrite Htr.
  - pose proof (Hfail (requests_of (w_trace w) ++
                  map ping_request (port_range joplinMinPortNum (joplinMaxPortNum - 1)))
                  joplinMaxPortNum) as Hf.
    rewrite Eo in Hf. cbn [ping_fails] in Hf.
    destruct (IsError code); [|rewrite Hf]; cbn [port_loop]; rewrite ret_run;
      cbn [negb]; rewrite ret_run; by rewrite Htr.
Qed.

Lemma port_loop_neither fuel apiToken' srv (n : nat) : ∀ i retErr w,
  (∀ past k, (k < n)%nat → neither_answer (srv past (ping_request (i + Z.of_nat k)))) →
  ∃ w', port_loop n fuel apiToken' i retErr srv w = (Some (false, retErr), w').
Proof.
  induction n as [|n IH]; intros i retErr w Hn.
  - by exists w.
  - cbn [port_loop]. change (mkRequest GET i "/ping" [] ∅ []) with (ping_request i).
    rewrite bind_send.
    destruct (Hn (requests_of (w_trace w)) 0%nat ltac:(lia))
      as (code & b & dump & Eo & Hs & He).
    rewrite Z.add_0_r in Eo. rewrite Eo. cbv beta zeta iota. rewrite He, Hs.
    apply IH. intros past k Hk.
    replace (i + 1 + Z.of_nat k) with (i + Z.of_nat (S k)) by lia. apply Hn. lia.
Qed.

Lemma port_range_snoc lo hi :
  lo ≤ hi → port_range lo hi = port_range lo (hi - 1) ++ [hi].
Proof.
  intros H. unfold port_range.
  replace (Z.to_nat (hi - lo + 1)) with (S (Z.to_nat (hi - 1 - lo + 1))) by lia.
  rewrite seq_S, map_app. cbn [map]. do 3 f_equal. lia.
Qed.

(** [New] after the probes of the ports before [j], all failed: the loop
    goes on at [j] with some [retErr]. *)
Lemma New_at_port fuel apiToken' srv w j :
  joplinMinPortNum ≤ j ≤ joplinMaxPortNum →
  (∀ past i, joplinMinPortNum ≤ i < j → ping_fails (srv past (ping_request i))) →
  ∃ retErr,
    New fuel apiToken' srv w =
    (port_loop (S (Z.to_nat (joplinMaxPortNum - j))) fuel apiToken' j retErr ≫=
       (λ r, let '(joplinPortFound, retErr) := (r : bool * option Error) in
             if negb joplinPortFound then mret (None, retErr)
             else c ← get_client; mret (Some c, None)))
      srv (mkWorld (mkClient 0 apiToken')
             (w_trace w ++ map (λ i, EvRequest (ping_request i))
                               (port_range joplinMinPortNum (j - 1)))).
Proof.
  intros Hj Hfail. unfold joplinMinPortNum, joplinMaxPortNum in Hj.
  set (d := Z.to_nat (j - joplinMinPortNum)).
  destruct (port_loop_skip fuel apiToken' srv d (S (Z.to_nat (joplinMaxPortNum - j)))
              joplinMinPortNum None (mkWorld (mkClient 0 apiToken') (w_trace w)))
    as [retErr' E].
  { intros past k Hk. apply Hfail. unfold d, joplinMinPortNum in *. lia. }
  exists retErr'. unfold New. rewrite bind_put. cbv beta.
  replace port_count with (d + S (Z.to_nat (joplinMaxPortNum - j)))%nat
    by (unfold port_count, d, joplinMaxPortNum, joplinMinPortNum; lia).
  rewrite !bind_run, E. cbn [w_client w_trace].
  replace (joplinMinPortNum + Z.of_nat d) with j by (unfold d, joplinMinPortNum; lia).
  unfold port_range. rewrite map_map.
  replace (Z.to_nat (j - 1 - joplinMinPortNum + 1)) with d
    by (unfold d, joplinMinPortNum; lia).
  reflexivity.
Qed.

(** When no port answers /ping with a success, New probes all eleven ports
    41184..41194 in order and returns a nil client.  Its error comes from
    the last port, in probe order, whose answer is not a 1xx or 3xx status
    (those leave the error as it was): that port's transport error, or nil
    when it answered an error status; nil as well when every port answered
    1xx or 3xx. *)
Theorem New_scan_error_from_last_decisive_port (fuel : nat) (apiToken' : string)
    (srv : Server) (w : World) :
  (∀ past i, ping_fails (srv past (ping_request i))) →
  w_trace (snd (New fuel apiToken' srv w)) =
    w_trace w ++ map (λ i, EvRequest (ping_request i))
                     (port_range joplinMinPortNum joplinMaxPortNum) ∧
  (∃ retErr, fst (New fuel apiToken' srv w) = Some (None, retErr)) ∧
  (∀ j e, joplinMinPortNum ≤ j ≤ joplinMaxPortNum →
     (∀ past, srv past (ping_request j) = TransportError e) →
     (∀ past i, j < i → neither_answer (srv past (ping_request i))) →
     fst (New fuel apiToken' srv w) = Some (None, Some (ErrTransport e))) ∧
  (∀ j, joplinMinPortNum ≤ j ≤ joplinMaxPortNum →
     (∀ past, ∃ code b dump, srv past (ping_request j) = Response code b dump ∧
                             IsError code = true) →
     (∀ past i, j < i → neither_answer (srv past (ping_request i))) →
     fst (New fuel apiToken' srv w) = Some (None, None)) ∧
  ((∀ past i, neither_answer (srv past (ping_request i))) →
     fst (New fuel apiToken' srv w) = Some (None, None)).
Proof.
  intros Hfail. destruct (New_scan_all_fail fuel apiToken' srv w Hfail) as [retErr0 E0].
  split; [by rewrite E0|]. split; [rewrite E0; by eexists|]. split; [|split].
  - intros j e Hj Hje Hlater.
    destruct (New_at_port fuel apiToken' srv w j Hj (λ past i _, Hfail past i))
      as [retErr E].
    rewrite E. cbn [port_loop].
    change (mkRequest GET j "/ping" [] ∅ []) with (ping_request j).
    rewrite bind_run, bind_send, Hje. cbv beta zeta iota.
    match goal with |- context [port_loop ?n fuel apiToken' (j + 1) ?re srv ?w1] =>
      destruct (port_loop_neither fuel apiToken' srv n (j + 1) re w1) as [w' E'] end.
    { intros past k _. apply Hlater. lia. }
    rewrite E'. reflexivity.
  - intros j Hj Hje Hlater.
    destruct (New_at_port fuel apiToken' srv w j Hj (λ past i _, Hfail past i))
      as [retErr E].
    rewrite E. cbn [port_loop].
    change (mkRequest GET j "/ping" [] ∅ []) with (ping_request j).
    rewrite bind_run, bind_send.
    match goal with |- context [srv ?past (ping_request j)] =>
      destruct (Hje past) as (code & b & dump & Eo & He); rewrite Eo end.
    cbv beta zeta iota. rewrite He.
    match goal with |- context [port_loop ?n fuel apiToken' (j + 1) ?re srv ?w1] =>
      destruct (port_loop_neither fuel apiToken' srv n (j + 1) re w1) as [w' E'] end.
    { intros past k _. apply Hlater. lia. }
    rewrite E'. reflexivity.
  - intros Hn. unfold New. rewrite bind_put. cbv beta. rewrite bind_run.
    destruct (port_loop_neither fuel apiToken' srv port_count joplinMinPortNum None
                (mkWorld (mkClient 0 apiToken') (w_trace w))) as [w' E'].
    { intros past k _. apply Hn. }
    rewrite E'. reflexivity.
Qed.

(** The caller main: when every port answers /ping with an error status,
    New returns (nil, nil); with no API token configured, main then calls
    client.GetApiToken() on the nil client, and with a token configured it
    goes on to run the command with a nil client. *)
Theorem main_nil_client (fuel : nat) (apiToken' : string) (srv : Server) (w : World) :
  (∀ past i, ∃ code b dump, srv past (ping_request i) = Response code b dump ∧
                            IsError code = true) →
  fst (main_start fuel "" srv w) = Some MainNilDereference ∧
  (apiToken' ≠ "" → fst (main_start fuel apiToken' srv w) = Some (MainReady None None)).
Proof.
  intros Herr.
  assert (Hfail : ∀ past i, ping_fails (srv past (ping_request i))).
  { intros past i. destruct (Herr past i) as (code & b & dump & Eo & He). rewrite Eo.
    cbn [ping_fails]. destruct (IsSuccess code) eqn:Hs; [|done].
    by rewrite (IsSuccess_not_IsError _ Hs) in He. }
  assert (HNew : ∀ t, New fuel t srv w =
                      (Some (None, None), snd (New fuel t srv w))).
  { intros t. destruct (New_scan_all_fail fuel t srv w Hfail) as [retErr E].
    rewrite E. cbn [snd].
    destruct (Herr (requests_of (w_trace w) ++
                    map ping_request (port_range joplinMinPortNum (joplinMaxPortNum - 1)))
                   joplinMaxPortNum) as (code & b & dump & Eo & He).
    by rewrite Eo, He. }
  unfold main_start. split.
  - rewrite bind_run, HNew. reflexivity.
  - intros Ht. rewrite bind_run, HNew. cbv beta zeta iota.
    apply nonempty_spec in Ht. by rewrite Ht.
Qed.

Lemma New_port_found fuel srv w P :
  joplinMinPortNum ≤ P ≤ joplinMaxPortNum →
  (∀ past i, joplinMinPortNum ≤ i < P → ping_fails (srv past (ping_request i))) →
  (∀ past, ping_ok (srv past (ping_request P))) →
  fst (New fuel "" srv w) =
  match getAuthToken srv
          (mkWorld (mkClient P "")
             (w_trace w ++ map (λ i, EvRequest (ping_request i))
                               (port_range joplinMinPortNum P))) with
  | (Some (_, Some e), _) => Some (None, Some e)
  | (Some (authToken, None), w3) =>
      match getApiToken fuel authToken srv w3 with
      | (Some (tok, None), _) => Some (Some (mkClient P tok), None)
      | (Some (_, Some e), _) => Some (None, Some e)
      | (None, _) => None
      end
  | (None, _) => None
  end.
Proof.
  intros HP Hfail Hok.
  unfold joplinMinPortNum, joplinMaxPortNum in HP.
  set (d := Z.to_nat (P - joplinMinPortNum)).
  set (w0 := mkWorld (mkClient 0 "") (w_trace w)).
  destruct (port_loop_skip fuel "" srv d (S (10 - d)) joplinMinPortNum None w0)
    as [retErr' E].
  { intros past k Hk. apply Hfail. unfold d, joplinMinPortNum in *. lia. }
  assert (Hpings :
    (w_trace w ++ map (λ k, EvRequest (ping_request (joplinMinPortNum + Z.of_nat k))) (seq 0 d))
              ++ [EvRequest (ping_request P)] =
    w_trace w ++ map (λ i, EvRequest (ping_request i)) (port_range joplinMinPortNum P)).
  { unfold port_range. rewrite map_map, <- app_assoc.
    replace (Z.to_nat (P - joplinMinPortNum + 1)) with (S d)
      by (unfold d, joplinMinPortNum; lia).
    rewrite seq_S, map_app. cbn [map]. do 5 f_equal. unfold d, joplinMinPortNum. lia. }
  unfold New. rewrite bind_put. cbv beta. rewrite bind_run.
  replace port_count with (d + S (10 - d))%nat
    by (unfold port_count, d, joplinMaxPortNum, joplinMinPortNum; lia).
  fold w0. rewrite E.
  replace (joplinMinPortNum + Z.of_nat d) with P by (unfold d, joplinMinPortNum; lia).
  cbn [port_loop].
  change (mkRequest GET P "/ping" [] ∅ []) with (ping_request P).
  rewrite bind_send.
  match goal with |- context [srv ?past (ping_request P)] =>
    destruct (Hok past) as (code & b & dump & Ek & Hs); rewrite Ek end.
  cbv beta zeta. rewrite (IsSuccess_not_IsError _ Hs), Hs.
  rewrite bind_get_client, bind_put. cbn [w_client w_trace apiToken w0].
  rewrite Hpings. change (nonempty "") with false. cbv iota.
  set (w2 := mkWorld (mkClient P "") _).
  rewrite !bind_run.
  destruct (getAuthToken_respects (mkClient P "") srv w2 eq_refl) as [Hc3 _].
  destruct (getAuthToken srv w2) as [[[authTok [e|]]|] w3] eqn:Ea;
    cbn [fst snd] in Hc3.
  - norm_in Ea. rewrite ret_run. cbn [negb]. by rewrite ret_run.
  - rewrite !bind_run.
    destruct (getApiToken_respects (mkClient P "") fuel authTok srv w3 Hc3) as [Hc4 _].
    destruct (getApiToken fuel authTok srv w3) as [[[tok [e|]]|] w4] eqn:Eb;
      cbn [fst snd] in Hc4.
    + rewrite bind_get_client, bind_put, ret_run. cbn [negb]. by rewrite ret_run.
    + rewrite bind_get_client, bind_put, ret_run. cbn [negb].
      rewrite bind_get_client, ret_run. cbn. by rewrite Hc4.
    + reflexivity.
  - reflexivity.
Qed.

(** With no API token given, when the first port P that answers /ping with a
    success then fails the POST /auth request (a transport error or an
    error status), New returns a nil client with a non-nil error after
    probing 41184..P and sending that one POST /auth: it does not go on to
    the next ports. *)
Theorem New_pairing_auth_failure (fuel : nat) (srv : Server) (w : World) (P : Z) :
  joplinMinPortNum ≤ P ≤ joplinMaxPortNum →
  (∀ past i, joplinMinPortNum ≤ i < P → ping_fails (srv past (ping_request i))) →
  (∀ past, ping_ok (srv past (ping_request P))) →
  (∀ past, page_failure (srv past (auth_request P))) →
  ∃ err, New fuel "" srv w =
    (Some (None, Some err),
     mkWorld (mkClient P "")
       (w_trace w ++ map (λ i, EvRequest (ping_request i))
                         (port_range joplinMinPortNum P) ++
        [EvRequest (auth_request P)])).
Proof.
  intros HP Hfail Hok Hauth.
  destruct (New_at_port fuel "" srv w P HP Hfail) as [retErr E].
  rewrite E. cbn [port_loop].
  change (mkRequest GET P "/ping" [] ∅ []) with (ping_request P).
  rewrite bind_run, bind_send.
  match goal with |- context [srv ?past (ping_request P)] =>
    destruct (Hok past) as (code & b & dump & Ek & Hs); rewrite Ek end.
  cbv beta zeta iota. rewrite (IsSuccess_not_IsError _ Hs), Hs.
  rewrite bind_get_client, bind_put. change (nonempty "") with false.
  cbn [w_client w_trace apiToken negb]. cbv iota.
  unfold getAuthToken. rewrite bind_run, bind_get_client, bind_send. cbn [w_client port].
  change (mkRequest POST P "/auth" [] ∅ []) with (auth_request P).
  rewrite (port_range_snoc joplinMinPortNum P) by lia.
  match goal with |- context [srv ?past (auth_request P)] =>
    destruct (Hauth past) as [[e Eo] | (code' & b' & dump' & Eo & He)]; rewrite Eo end;
    cbv beta zeta; [|rewrite He]; eexists; cbn [w_client w_trace];
    rewrite map_app, <- !app_assoc; reflexivity.
Qed.

(** With no API token given, when the first port P that answers /ping with
    a success also answers POST /auth with a success and its first
    /auth/check with "accepted", New returns the client (P, token) with no
    error, where token is the token field of the accepted answer; when that
    answer has no token field, the client gets the empty API token, still
    with no error. *)
Theorem New_pairing_accepted (fuel : nat) (srv : Server) (w : World) (P : Z)
    (tok : option string) :
  (1 ≤ fuel)%nat →
  joplinMinPortNum ≤ P ≤ joplinMaxPortNum →
  (∀ past i, joplinMinPortNum ≤ i < P → ping_fails (srv past (ping_request i))) →
  (∀ past, ping_ok (srv past (ping_request P))) →
  (∀ past, ∃ code b dump, srv past (auth_request P) = Response code b dump ∧
                          IsSuccess code = true) →
  (∀ past authToken, ∃ code b dump,
     srv past (poll_request (mkClient P "") authToken) = Response code b dump ∧
     IsSuccess code = true ∧ b_status b = Some "accepted" ∧ b_token b = tok) →
  fst (New fuel "" srv w) =
  Some (Some (mkClient P (match tok with Some t => t | None => "" end)), None).
Proof.
  intros Hfuel HP Hfail Hok Hauth Hpoll. rewrite (New_port_found fuel srv w P HP Hfail Hok).
  unfold getAuthToken. rewrite bind_get_client, bind_send. cbn [w_client port].
  change (mkRequest POST P "/auth" [] ∅ []) with (auth_request P).
  match goal with |- context [srv ?past (auth_request P)] =>
    destruct (Hauth past) as (code & b & dump & Eo & Hs); rewrite Eo end.
  cbv beta zeta. rewrite (IsSuccess_not_IsError _ Hs), Hs, ret_run. cbv iota.
  unfold getApiToken. rewrite bind_run. destruct fuel as [|fuel]; [lia|].
  cbn [poll_loop]. rewrite bind_get_client, bind_send. cbn [w_client].
  match goal with |- context [srv ?past (poll_request _ ?a)] =>
    destruct (Hpoll past a) as (code' & b' & dump' & Eo' & Hs' & Hst & Htok); rewrite Eo' end.
  cbv beta zeta. rewrite (IsSuccess_not_IsError _ Hs'), Hs'.
  unfold decode_poll. rewrite Hs', Hst, Htok. cbn. by destruct tok.
Qed.

(** ** What discovery and pairing send *)

Section SendsOnly.
Context (R : Request → Prop).

Lemma sends_ret {A} (a : A) : sends_only R (mret a).
Proof. intros srv w. exists []. rewrite app_nil_r. set_solver. Qed.

Lemma sends_diverge {A} : sends_only (A:=A) R diverge.
Proof. intros srv w. exists []. rewrite app_nil_r. set_solver. Qed.

Lemma sends_send r : R r → sends_only R (send r).
Proof.
  intros HR srv w. exists [EvRequest r]. split; [done|].
  intros r' Hr'. apply list_elem_of_singleton in Hr'. by inversion Hr'; subst.
Qed.

Lemma sends_sleep s : sends_only R (sleep s).
Proof. intros srv w. exists [EvSleep s]. split; [done|]. set_solver. Qed.

Lemma sends_get_client : sends_only R get_client.
Proof. intros srv w. exists []. rewrite app_nil_r. set_solver. Qed.

Lemma sends_put c : sends_only R (put_client c).
Proof. intros srv w. exists []. rewrite app_nil_r. set_solver. Qed.

Lemma sends_bind {A B} (m : M A) (k : A → M B) :
  sends_only R m → (∀ a, sends_only R (k a)) → sends_only R (m ≫= k).
Proof.
  intros Hm Hk srv w. unfold mbind, M_bind.
  destruct (Hm srv w) as [evs1 [Ht1 HR1]].
  destruct (m srv w) as [[a|] w'] eqn:E; simpl in *.
  - destruct (Hk a srv w') as [evs2 [Ht2 HR2]].
    exists (evs1 ++ evs2). split.
    + by rewrite Ht2, Ht1, app_assoc.
    + intros r Hr. apply elem_of_app in Hr as [Hr|Hr]; auto.
  - by exists evs1.
Qed.

End SendsOnly.

Ltac sends_auto :=
  repeat first
    [ apply sends_ret
    | apply sends_diverge
    | apply sends_sleep
    | apply sends_get_client
    | apply sends_put
    | apply sends_bind; [ | intros ? ]
    | apply sends_send
    | progress cbv beta zeta
    | case_match ].

Lemma poll_loop_discovery fuel authToken retries result :
  sends_only discovery_request (poll_loop fuel authToken retries result).
Proof.
  revert retries result.
  induction fuel as [|fuel IH]; intros retries result; cbn [poll_loop].
  - apply sends_diverge.
  - sends_auto; auto. do 2 right. split; [done|]. split; [done|]. by eexists.
Qed.

Lemma port_loop_discovery n fuel apiToken' i retErr :
  sends_only discovery_request (port_loop n fuel apiToken' i retErr).
Proof.
  revert i retErr.
  induction n as [|n IH]; intros i retErr; cbn [port_loop].
  - apply sends_ret.
  - apply sends_bind; [apply sends_send; by left|]. intros o.
    destruct o as [e|code b dump]; [apply IH|].
    destruct (IsError code); [apply IH|].
    destruct (IsSuccess code); [|apply IH].
    unfold getAuthToken, getApiToken.
    sends_auto; first [apply poll_loop_discovery | by right; left].
Qed.

Lemma discovery_request_no_token r :
  discovery_request r → rq_query r !! "token" = None.
Proof.
  intros [(_ & _ & ->) | [(_ & _ & ->) | (_ & _ & a & ->)]]; [done | done |].
  by rewrite lookup_singleton_ne.
Qed.

(** New sends only GET /ping and POST /auth with no query parameter and
    GET /auth/check with auth_token as its only query parameter; in
    particular it never sends a token parameter, neither the API token it
    is given nor any other. *)
Theorem New_sends_no_token (fuel : nat) (apiToken' : string) (srv : Server) (w : World) :
  ∃ evs, w_trace (snd (New fuel apiToken' srv w)) = w_trace w ++ evs ∧
    ∀ r, EvRequest r ∈ evs → discovery_request r ∧ rq_query r !! "token" = None.
Proof.
  assert (H : sends_only discovery_request (New fuel apiToken')).
  { unfold New. apply sends_bind; [apply sends_put | intros _].
    apply sends_bind; [apply port_loop_discovery|]. intros [found retErr].
    sends_auto. }
  destruct (H srv w) as [evs [Ht Hr]]. exists evs. split; [done|].
  intros r Hin. split; [by apply Hr|]. by apply discovery_request_no_token, Hr.
Qed.

(** ** The command-line program *)

Lemma check_response_generic_line {X} (o : Outcome) (a b : X) :
  match check_response generic_error o with Some _ => a | None => b end =
  if answer_ok o then b else a.
Proof.
  destruct o as [e|code body dump]; [done|]. cbn [check_response answer_ok].
  destruct (IsError code) eqn:He, (IsSuccess code) eqn:Hs; try done.
  by rewrite (IsSuccess_not_IsError _ Hs) in He.
Qed.

(** delete tags: for the IDs in order, DeleteTagsCmd.Run sends one
    DELETE /tags/{id} per ID and prints, for each, "Tag with ID '...'
    deleted'" when the answer is a success and "Could not find tag with ID
    '...'" otherwise: for a transport error or any error status (a 500 as
    well as a 404) or an unexpected status alike. *)
Theorem DeleteTagsCmd_Run_lines (IDs : list string) (srv : Server) (w : World) :
  DeleteTagsCmd_Run IDs srv w =
  (Some (imap (λ k id,
           if answer_ok (srv (requests_of (w_trace w) ++
                              map (delete_tag_request (w_client w)) (take k IDs))
                             (delete_tag_request (w_client w) id))
           then deleted_line id else not_found_line id) IDs),
   mkWorld (w_client w)
     (w_trace w ++ map (λ id, EvRequest (delete_tag_request (w_client w) id)) IDs)).
Proof.
  revert w. induction IDs as [|id IDs IH]; intros w.
  - cbn. by rewrite world_app_nil.
  - cbn [DeleteTagsCmd_Run]. unfold DeleteTag.
    rewrite bind_run, bind_get_client, bind_send, ret_run. cbv beta zeta.
    change (mkRequest DELETE (port (w_client w)) "/tags/{id}" [("id", id)]
              (token_query (w_client w)) [])
      with (delete_tag_request (w_client w) id).
    rewrite bind_run, IH, ret_run. cbn [w_client w_trace].
    rewrite check_response_generic_line, imap_cons. cbn [take map]. rewrite app_nil_r.
    rewrite <- app_assoc. cbn [app].
    do 3 f_equal. apply imap_ext. intros k id' _. cbn [take map compose].
    rewrite requests_of_app. cbn [requests_of]. by rewrite <- app_assoc.
Qed.

Lemma tagsFound_foldl tags : ∀ (m : gmap string (list string)) t,
  foldl (λ m tag, <[Title tag := default [] (m !! Title tag) ++ [ID tag]]> m) m tags !! t =
  match m !! t, map ID (filter (λ tag, Title tag = t) tags) with
  | None, [] => None
  | o, l => Some (default [] o ++ l)
  end.
Proof.
  induction tags as [|tag tags IH]; intros m t.
  - cbn. destruct (m !! t); [by rewrite app_nil_r | done].
  - cbn [foldl]. rewrite IH. rewrite filter_cons.
    destruct (decide (Title tag = t)) as [<-|Hne].
    + rewrite lookup_insert_eq. cbn [map].
      destruct (m !! Title tag); cbn; [by rewrite <- app_assoc | done].
    + by rewrite lookup_insert_ne by done.
Qed.

(** The duplicate-tag listing of the command-line program groups the tags
    by title: for every title t, tagsFound holds the IDs of the tags titled
    t, in the order the server listed them, and no entry when no tag has
    that title; the entries printed are exactly the titles of two or more
    tags, with all their IDs. *)
Theorem tagsFound_groups (tags : list Entity) (t : string) :
  tagsFound tags !! t =
    (if decide (map ID (filter (λ tag, Title tag = t) tags) = []) then None
     else Some (map ID (filter (λ tag, Title tag = t) tags))) ∧
  duplicateTags tags !! t =
    (if decide (1 < length (map ID (filter (λ tag, Title tag = t) tags)))%nat
     then Some (map ID (filter (λ tag, Title tag = t) tags)) else None).
Proof.
  assert (Hf : tagsFound tags !! t =
    (if decide (map ID (filter (λ tag, Title tag = t) tags) = []) then None
     else Some (map ID (filter (λ tag, Title tag = t) tags)))).
  { unfold tagsFound. rewrite tagsFound_foldl, lookup_empty.
    destruct (map ID _) as [|x l]; done. }
  split; [exact Hf|].
  unfold duplicateTags. rewrite map_lookup_filter, Hf.
  destruct (decide (map ID _ = [])) as [He|Hne].
  - rewrite He. done.
  - cbn. by case_guard.
Qed.

(** ** Witnesses for the further properties *)

Lemma list_call_error_status_witness :
  fst (run_list 3 (CGetNotesByTag "t1" "" "")
         (λ _ r, match rq_query r !! "page" with
                 | Some "1" => Response 200 (mkBody (Some [mkEntity "A" "" ""]) (Some true)
                                                   None None None None None) ""
                 | _ => Response 404 emptyBody "HTTP/1.1 404 Not Found"
                 end)
         (mkWorld (mkClient 41184 "tok") [])) =
  Some ([mkEntity "A" "" ""], Some (ErrCouldNotFind "note with IDs" "t1")).
Proof.
  apply (list_call_error_status 3 (CGetNotesByTag "t1" "" "") [[mkEntity "A" "" ""]] _ _
           404 emptyBody "HTTP/1.1 404 Not Found").
  - simpl; lia.
  - intros past r i Hi Hq. simpl length in Hi. rewrite Hq.
    destruct i as [|[|i]]; try lia. do 3 eexists; repeat split; reflexivity.
  - intros past r Hq. rewrite Hq. reflexivity.
  - reflexivity.
Defined.

Lemma list_call_unexpected_status_witness :
  fst (run_list 3 (CGetAllTags "title" "asc")
         (λ _ r, match rq_query r !! "page" with
                 | Some "1" => Response 200 (mkBody (Some [mkEntity "A" "" ""]) (Some true)
                                                   None None None None None) ""
                 | _ => Response 304 emptyBody "HTTP/1.1 304 Not Modified"
                 end)
         (mkWorld (mkClient 41184 "tok") [])) =
  Some ([mkEntity "A" "" ""], Some (ErrUnexpectedResponse "HTTP/1.1 304 Not Modified")).
Proof.
  apply (list_call_unexpected_status 3 (CGetAllTags "title" "asc") [[mkEntity "A" "" ""]] _ _
           304 emptyBody "HTTP/1.1 304 Not Modified").
  - simpl; lia.
  - intros past r i Hi Hq. simpl length in Hi. rewrite Hq.
    destruct i as [|[|i]]; try lia. do 3 eexists; repeat split; reflexivity.
  - intros past r Hq. rewrite Hq. reflexivity.
  - reflexivity.
  - reflexivity.
Defined.

Lemma list_call_page_without_items_witness :
  fst (run_list 2 (CGetAllFolders "id,title" "" "")
         (λ _ r, match rq_query r !! "page" with
                 | Some "1" => Response 200 (mkBody (Some [mkEntity "A" "" ""; mkEntity "B" "" ""])
                                                   (Some true) None None None None None) ""
                 | _ => Response 200 (mkBody None (Some false) None None None None None) ""
                 end)
         (mkWorld (mkClient 41184 "tok") [])) =
  Some ([mkEntity "A" "" ""; mkEntity "B" "" ""] ++ [mkEntity "A" "" ""; mkEntity "B" "" ""],
        None).
Proof.
  apply (list_call_page_without_items 2 (CGetAllFolders "id,title" "" "")).
  - lia.
  - intros past r Hq. rewrite Hq. do 3 eexists; repeat split; reflexivity.
  - intros past r Hq. rewrite Hq. do 3 eexists; repeat split; reflexivity.
Defined.

Lemma list_call_page_without_has_more_witness :
  run_list 3 (CGetAllNotes "id" "" "")
    (λ _ r, match rq_query r !! "page" with
            | Some "1" => Response 200 (mkBody (Some [mkEntity "A" "" ""]) (Some true)
                                              None None None None None) ""
            | Some "2" => Response 200 (mkBody (Some [mkEntity "B" "" ""]) None
                                              None None None None None) ""
            | _ => Response 200 (mkBody (Some [mkEntity "C" "" ""]) (Some false)
                                       None None None None None) ""
            end)
    (mkWorld (mkClient 41184 "tok") []) =
  (Some ([mkEntity "A" "" ""] ++ [mkEntity "B" "" ""] ++ [mkEntity "C" "" ""], None),
   mkWorld (mkClient 41184 "tok")
     ([] ++ map (page_event (list_request (CGetAllNotes "id" "" "") (mkClient 41184 "tok"))
                           (list_query (CGetAllNotes "id" "" "") (mkClient 41184 "tok")))
                (seq 1 3))).
Proof.
  apply (list_call_page_without_has_more 3 (CGetAllNotes "id" "" "")).
  - lia.
  - intros past r Hq. rewrite Hq. do 3 eexists; repeat split; reflexivity.
  - intros past r Hq. rewrite Hq. do 3 eexists; repeat split; reflexivity.
  - intros past r Hq. rewrite Hq. do 3 eexists; repeat split; reflexivity.
Defined.

Lemma list_call_no_page_limit_witness :
  run_list 4 (CSearch "milk" "note" "")
    (λ _ _, Response 200 (mkBody (Some [mkEntity "A" "" ""]) (Some true)
                                None None None None None) "")
    (mkWorld (mkClient 41184 "tok") []) =
  (None, mkWorld (mkClient 41184 "tok")
           ([] ++ map (page_event (list_request (CSearch "milk" "note" "") (mkClient 41184 "tok"))
                                 (list_query (CSearch "milk" "note" "") (mkClient 41184 "tok")))
                      (seq 1 4))).
Proof.
  apply (list_call_no_page_limit 4 (CSearch "milk" "note" "") [mkEntity "A" "" ""]).
  intros past r. do 3 eexists; repeat split; reflexivity.
Defined.

Lemma data_ops_send_token_witness :
  ∃ evs, w_trace (snd (run_op 1 (OGetTag "t1" "id,title") (λ _ _, Response 200 emptyBody "")
                         (mkWorld (mkClient 41184 "tok") []))) = [] ++ evs ∧
    ∀ r, EvRequest r ∈ evs → rq_query r !! "token" = Some "tok".
Proof. apply (data_ops_send_token 1 (OGetTag "t1" "id,title")). reflexivity. Defined.

Lemma getApiToken_rejected_witness :
  getApiToken 20 "auth"
    (λ past _, if (length past <? 2)%nat then Response 200 (status_body "waiting") ""
               else Response 200 (status_body "rejected") "")
    (mkWorld (mkClient 41184 "") []) =
  (Some ("", Some ErrRejected),
   mkWorld (mkClient 41184 "")
     ([] ++ polls_sleeping (poll_request (mkClient 41184 "") "auth") (2 + 1))).
Proof.
  apply (getApiToken_rejected 20 "auth" _ (mkWorld (mkClient 41184 "") []) 2); [lia | lia | |].
  - intros past r Hp. simpl in Hp. apply Nat.ltb_lt in Hp. rewrite Hp.
    do 3 eexists. repeat split.
  - intros past r Hp. simpl in Hp. rewrite Hp. do 3 eexists. repeat split.
Defined.

Lemma main_nil_client_witness :
  fst (main_start 5 "" (λ _ _, Response 500 emptyBody "HTTP/1.1 500")
         (mkWorld (mkClient 0 "") [])) = Some MainNilDereference ∧
  fst (main_start 5 "tok" (λ _ _, Response 500 emptyBody "HTTP/1.1 500")
         (mkWorld (mkClient 0 "") [])) = Some (MainReady None None).
Proof.
  destruct (main_nil_client 5 "tok" (λ _ _, Response 500 emptyBody "HTTP/1.1 500")
              (mkWorld (mkClient 0 "") [])) as [H1 H2].
  - intros past i. do 3 eexists. split; reflexivity.
  - split; [exact H1 | apply H2; discriminate].
Defined.

Lemma New_pairing_accepted_witness :
  fst (New 5 ""
         (λ _ r, if String.eqb (rq_path r) "/auth/check"
                 then Response 200 (status_body "accepted") ""
                 else Response 200 (mkBody None None None None (Some "at") None None) "")
         (mkWorld (mkClient 0 "") [])) =
  Some (Some (mkClient 41184 ""), None).
Proof.
  apply (New_pairing_accepted 5 _ _ 41184 None).
  - lia.
  - unfold joplinMinPortNum, joplinMaxPortNum. lia.
  - intros past i Hi. unfold joplinMinPortNum in Hi. lia.
  - intros past. do 3 eexists. split; reflexivity.
  - intros past. do 3 eexists. split; reflexivity.
  - intros past authToken. do 3 eexists. repeat split.
Defined.

Lemma getApiToken_neither_status_repolls_witness :
  poll_loop (2 + 3) "auth" 7 zeroPoll
    (λ past _, if (length past <? 2)%nat then Response 302 emptyBody "HTTP/1.1 302 Found"
               else Response 200 (status_body "waiting") "")
    (mkWorld (mkClient 41184 "") []) =
  poll_loop 3 "auth" 7 zeroPoll
    (λ past _, if (length past <? 2)%nat then Response 302 emptyBody "HTTP/1.1 302 Found"
               else Response 200 (status_body "waiting") "")
    (mkWorld (mkClient 41184 "")
       ([] ++ repeat (EvRequest (poll_request (mkClient 41184 "") "auth")) 2)) ∧
  getApiToken 2 "auth"
    (λ past _, if (length past <? 2)%nat then Response 302 emptyBody "HTTP/1.1 302 Found"
               else Response 200 (status_body "waiting") "")
    (mkWorld (mkClient 41184 "") []) =
  (None, mkWorld (mkClient 41184 "")
           ([] ++ repeat (EvRequest (poll_request (mkClient 41184 "") "auth")) 2)).
Proof.
  apply (getApiToken_neither_status_repolls 2 3 "auth" 7 zeroPoll).
  intros past r Hp. simpl in Hp. apply Nat.ltb_lt in Hp. rewrite Hp.
  do 3 eexists. repeat split.
Defined.

Lemma New_scan_error_from_last_decisive_port_witness :
  fst (New 5 "tok"
         (λ _ r, if bool_decide (rq_port r < 41190) then Response 500 emptyBody "500"
                 else if bool_decide (rq_port r = 41190) then TransportError "connection refused"
                 else Response 302 emptyBody "302")
         (mkWorld (mkClient 0 "") [])) =
  Some (None, Some (ErrTransport "connection refused")).
Proof.
  destruct (New_scan_error_from_last_decisive_port 5 "tok"
              (λ _ r, if bool_decide (rq_port r < 41190) then Response 500 emptyBody "500"
                      else if bool_decide (rq_port r = 41190)
                           then TransportError "connection refused"
                           else Response 302 emptyBody "302")
              (mkWorld (mkClient 0 "") [])) as (_ & _ & H & _).
  - intros past i. cbn beta.
    destruct (bool_decide _); [reflexivity|]. destruct (bool_decide _); [exact I|reflexivity].
  - apply (H 41190).
    + unfold joplinMinPortNum, joplinMaxPortNum. lia.
    + intros past. reflexivity.
    + intros past i Hi. cbn beta. cbn [rq_port ping_request].
      rewrite bool_decide_false by lia. rewrite bool_decide_false by lia.
      do 3 eexists. repeat split.
Defined.

Lemma New_pairing_auth_failure_witness :
  ∃ err, New 5 ""
           (λ _ r, if bool_decide (rq_port r = 41185) then
                     (if String.eqb (rq_path r) "/auth" then Response 500 emptyBody "500"
                      else Response 200 emptyBody "")
                   else TransportError "connection refused")
           (mkWorld (mkClient 0 "") []) =
    (Some (None, Some err),
     mkWorld (mkClient 41185 "")
       ([] ++ map (λ i, EvRequest (ping_request i)) (port_range joplinMinPortNum 41185) ++
        [EvRequest (auth_request 41185)])).
Proof.
  apply (New_pairing_auth_failure 5 _ (mkWorld (mkClient 0 "") []) 41185).
  - unfold joplinMinPortNum, joplinMaxPortNum. lia.
  - intros past i Hi. unfold joplinMinPortNum in Hi. cbn beta.
    rewrite bool_decide_false by (simpl; lia). exact I.
  - intros past. cbn beta. rewrite bool_decide_true by reflexivity.
    do 3 eexists. split; reflexivity.
  - intros past. cbn beta. rewrite bool_decide_true by reflexivity.
    right. do 3 eexists. split; reflexivity.
Defined.
